(** * nbonjour: the service registry (lib/registry.js)

    A shallow embedding of the registry's lifecycle code: probe, announce,
    conflict resolution and teardown.  JavaScript objects shared by
    reference (services, the closures of [probe] and [announce]) live in
    stores indexed by position; the event loop is a table of deferred
    callbacks (timers and transport completions) that the environment runs
    one at a time, in any order. *)

From Stdlib Require Import String Ascii ZArith Bool Lia DecimalString.
From stdpp Require Import base list.

Local Open Scope Z_scope.

(** ** Constants (registry.js:8-9) *)

Definition REANNOUNCE_MAX_MS : Z := 60 * 60 * 1000.
Definition REANNOUNCE_FACTOR : Z := 3.

(** ** Data *)

(** A resource record, as far as the registry looks at it. *)
Record RR := mkRR { rr_name : string; rr_type : string; rr_ttl : Z }.

(** A response packet delivered by the transport's "response" event. *)
Record Packet := mkPacket { answers : list RR; additionals : list RR }.

(** The fields of a Service object the registry reads or writes.
    [_originalName] and [_nameAttempt] are [undefined] until the first
    [start]; [None] in [_nameAttempt] also stands for the non-number that
    incrementing [undefined] would give. *)
Record Service := mkService {
  name : string;
  type : string;
  fqdn : string;
  published : bool;
  _activated : bool;
  _destroyed : bool;
  _originalName : option string;
  _nameAttempt : option nat }.

Definition set_activated (b : bool) (s : Service) : Service :=
  mkService (name s) (type s) (fqdn s) (published s) b (_destroyed s)
            (_originalName s) (_nameAttempt s).

Definition set_published (b : bool) (s : Service) : Service :=
  mkService (name s) (type s) (fqdn s) b (_activated s) (_destroyed s)
            (_originalName s) (_nameAttempt s).

Definition set_destroyed (b : bool) (s : Service) : Service :=
  mkService (name s) (type s) (fqdn s) (published s) (_activated s) b
            (_originalName s) (_nameAttempt s).

Definition set_original (o : option string) (n : option nat) (s : Service) : Service :=
  mkService (name s) (type s) (fqdn s) (published s) (_activated s)
            (_destroyed s) o n.

Definition set_name (nm fq : string) (s : Service) : Service :=
  mkService nm (type s) fq (published s) (_activated s) (_destroyed s)
            (_originalName s) (_nameAttempt s).

Definition set_attempt (n : option nat) (s : Service) : Service :=
  mkService (name s) (type s) (fqdn s) (published s) (_activated s)
            (_destroyed s) (_originalName s) n.

(** Modelled from the spec: the Service constructor of lib/service.js, which
    is not part of the sources at hand.  The spec gives [fqdn] as
    [name + "." + type], all flags false and no original name yet. *)
Definition new_Service (nm ty : string) : Service :=
  mkService nm ty (nm ++ "." ++ ty)%string false false false None None.

(** Modelled from the spec: [dnsEqual] of the dns-equal package, the
    case-insensitive comparison of two DNS names. *)
Definition lower_ascii (c : ascii) : ascii :=
  let n := nat_of_ascii c in
  if ((65 <=? n)%nat && (n <=? 90)%nat)%bool then ascii_of_nat (n + 32) else c.

Fixpoint lower (s : string) : string :=
  match s with
  | EmptyString => EmptyString
  | String c r => String (lower_ascii c) (lower r)
  end.

Definition dnsEqual (a b : string) : bool := String.eqb (lower a) (lower b).

Definition dquote : string := String (ascii_of_nat 34) EmptyString.

(** JavaScript's rendering of a number inside a string concatenation. *)
Definition show_attempt (n : option nat) : string :=
  match n with
  | Some k => NilEmpty.string_of_uint (Nat.to_uint k)
  | None => "NaN"
  end.

(** Truthiness of [this._originalName]: [undefined] and the empty string are
    both falsy. *)
Definition truthy_name (o : option string) : bool :=
  match o with
  | None => false
  | Some s => negb (String.eqb s EmptyString)
  end.

(** The values that reach the [opts] parameter of [start]. *)
Inductive value :=
| VUndefined
| VOpts (probe : bool)     (* an options object, with the truthiness of its [probe] *)
| VRegistry                (* the Registry object: it has no [probe] property *)
| VService (s : nat)
| VOther.

(** [opts.probe]: reading a property of [undefined] throws. *)
Definition opts_probe (v : value) : option bool :=
  match v with
  | VUndefined => None
  | VOpts b => Some b
  | _ => Some false
  end.

(** ** The closures and the event loop *)

(** Local variables of one call of [probe] (registry.js:108-110), with the
    service and the [opts] its completion callback has captured. *)
Record Probe := mkProbe {
  p_service : nat;
  p_opts : value;
  sent : bool;
  retries : nat;
  timer : option nat }.

(** Local variables of one call of [announce] (registry.js:159-160). *)
Record Announce := mkAnnounce {
  a_service : nat;
  delay : Z;
  packet : list RR }.

(** A deferred callback: a timer's function, or the completion callback
    handed to the transport. *)
Inductive callback :=
| CbSend (p : nat)                            (* setTimeout(send, ..) *)
| CbDone (p : nat)                            (* setTimeout(done, 250) *)
| CbBroadcast (a : nat)                       (* setTimeout(broadcast, delay) *)
| CbQuery (p : nat)                           (* callback of mdns.query *)
| CbRespond (a : nat)                         (* callback of mdns.respond in announce *)
| CbGoodbye (ss : list nat) (cb : option nat). (* callback of mdns.respond in teardown *)

Inductive wait :=
| Jitter            (* Math.random() * 250 *)
| Ms (ms : Z)       (* a timer of that many milliseconds *)
| Io.               (* completion of a transport operation *)

Inductive status := Pending | Ran | Cleared.

Record Task := mkTask { t_cb : callback; t_wait : wait; t_status : status }.

(** What the registry does to its collaborators, in order. *)
Inductive action :=
| Query (q : string)                          (* mdns.query(q, 'ANY', ..) *)
| Register (rs : list RR)                     (* server.register *)
| Unregister (rs : list RR)                   (* server.unregister *)
| Respond (rs : list RR)                      (* mdns.respond *)
| Emit (s : nat) (ev : string)                (* service.emit *)
| ConsoleLog (msg : string)
| ProbeResult (p s : nat) (found : bool)      (* cb(Boolean(exists)) in done, for service s *)
| UserCallback (cb : nat) (result : option string)
| Throw (e : string).

Record State := mkState {
  heap : list Service;             (* every Service object created, by reference *)
  services : list nat;             (* registry._services *)
  probes : list Probe;
  announces : list Announce;
  response_listeners : list nat;   (* mdns listeners of 'response', one per probe *)
  error_listeners : list (nat * value); (* mdns listeners of 'error', one per start,
                                      with the [this] and [opts] of that call *)
  loop : list Task;
  log : list action }.

Definition init : State := mkState [] [] [] [] [] [] [] [].

Definition with_heap (h : list Service) (st : State) : State :=
  mkState h (services st) (probes st) (announces st) (response_listeners st)
          (error_listeners st) (loop st) (log st).

Definition with_services (l : list nat) (st : State) : State :=
  mkState (heap st) l (probes st) (announces st) (response_listeners st)
          (error_listeners st) (loop st) (log st).

Definition with_probes (l : list Probe) (st : State) : State :=
  mkState (heap st) (services st) l (announces st) (response_listeners st)
          (error_listeners st) (loop st) (log st).

Definition with_announces (l : list Announce) (st : State) : State :=
  mkState (heap st) (services st) (probes st) l (response_listeners st)
          (error_listeners st) (loop st) (log st).

Definition with_response_listeners (l : list nat) (st : State) : State :=
  mkState (heap st) (services st) (probes st) (announces st) l
          (error_listeners st) (loop st) (log st).

Definition with_error_listeners (l : list (nat * value)) (st : State) : State :=
  mkState (heap st) (services st) (probes st) (announces st)
          (response_listeners st) l (loop st) (log st).

Definition with_loop (l : list Task) (st : State) : State :=
  mkState (heap st) (services st) (probes st) (announces st)
          (response_listeners st) (error_listeners st) l (log st).

Definition with_log (l : list action) (st : State) : State :=
  mkState (heap st) (services st) (probes st) (announces st)
          (response_listeners st) (error_listeners st) (loop st) l.

Definition set_service (s : nat) (v : Service) (st : State) : State :=
  with_heap (<[s := v]> (heap st)) st.

Definition say (a : action) (st : State) : State :=
  with_log (log st ++ [a]) st.

(** Hands a callback to the event loop; its handle is its position. *)
Definition defer (c : callback) (w : wait) (st : State) : State :=
  with_loop (loop st ++ [mkTask c w Pending]) st.

(** [timers.clearTimeout(timer)]: only a timer that has not fired is
    affected. *)
Definition clearTimeout (t : option nat) (st : State) : State :=
  match t with
  | None => st
  | Some i =>
      match loop st !! i with
      | Some (mkTask c w Pending) => with_loop (<[i := mkTask c w Cleared]> (loop st)) st
      | _ => st
      end
  end.

(** [indexOf] followed by [splice(index, 1)]: drops the first occurrence. *)
Fixpoint remove_first (s : nat) (l : list nat) : list nat :=
  match l with
  | [] => []
  | x :: r => if Nat.eqb x s then r else x :: remove_first s r
  end.

(** ** The lexical scopes around the 'error' listener (registry.js:47-49)

    The listener is created in the body of [start], outside the block of
    [if (opts.probe)].  The [const service] of line 52 belongs to that block,
    so it is not among the names the listener can see: its own parameter,
    the parameters of [start], the bindings of the module and those of the
    module wrapper.  The global object has no [service] either. *)
Definition error_listener_scopes (opts : value) : list (list (string * value)) :=
  [ [("err", VOther)];
    [("registry", VRegistry); ("opts", opts)];
    [("timers", VOther); ("dnsEqual", VOther); ("flatten", VOther);
     ("Service", VOther); ("REANNOUNCE_MAX_MS", VOther);
     ("REANNOUNCE_FACTOR", VOther); ("Registry", VOther); ("start", VOther);
     ("stop", VOther); ("probe", VOther); ("announce", VOther);
     ("teardown", VOther)];
    [("exports", VOther); ("require", VOther); ("module", VOther);
     ("__filename", VOther); ("__dirname", VOther)] ]%string.

Fixpoint assoc (x : string) (l : list (string * value)) : option value :=
  match l with
  | [] => None
  | (y, v) :: r => if String.eqb x y then Some v else assoc x r
  end.

(** Resolution of an identifier, innermost scope first. *)
Fixpoint resolve (x : string) (scopes : list (list (string * value))) : option value :=
  match scopes with
  | [] => None
  | sc :: r => match assoc x sc with Some v => Some v | None => resolve x r end
  end.

(** A record builder for the concrete runs: a PTR record under the type, an
    SRV and a TXT record under the fqdn. *)
Definition sample_records (s : Service) : list RR :=
  [mkRR (type s) "PTR" 28800; mkRR (fqdn s) "SRV" 120; mkRR (fqdn s) "TXT" 4500]%string.

(** A response whose answer section names "Printer.http", in another case. *)
Definition conflicting : Packet := mkPacket [mkRR "printer.HTTP" "SRV" 120]%string [].

(** The service of the spec's scenarios once started, and a registry that
    tracks it. *)
Definition printer : Service :=
  mkService "Printer" "http" "Printer.http" false true false
            (Some "Printer"%string) (Some 1%nat).

Definition started : State := mkState [printer] [0%nat] [] [] [] [] [] [].

Section Registry.

(** The record builder of a service ([service._records()], lib/service.js),
    a collaborator of the registry: any function of the service's state. *)
Variable _records : Service -> list RR.

(** *** announce (registry.js:158-182) *)

Definition broadcast (a : nat) (st : State) : State :=
  match announces st !! a with
  | None => st
  | Some ctx =>
      match heap st !! a_service ctx with
      | None => st
      | Some svc =>
          if (negb (_activated svc) || _destroyed svc)%bool then st
          else defer (CbRespond a) Io (say (Respond (packet ctx)) st)
      end
  end.

(** The callback handed to [server.mdns.respond] by [broadcast]. *)
Definition broadcast_cb (a : nat) (st : State) : State :=
  match announces st !! a with
  | None => st
  | Some ctx =>
      let s := a_service ctx in
      match heap st !! s with
      | None => st
      | Some svc =>
          let st :=
            if negb (published svc)
            then say (Emit s "up")
                     (set_service s (set_published true (set_activated true svc)) st)
            else st in
          let d := delay ctx * REANNOUNCE_FACTOR in
          let st := with_announces (<[a := mkAnnounce s d (packet ctx)]> (announces st)) st in
          if ((d <? REANNOUNCE_MAX_MS) && negb (_destroyed svc))%bool
          then defer (CbBroadcast a) (Ms d) st
          else st
      end
  end.

Definition announce (s : nat) (st : State) : State :=
  match heap st !! s with
  | None => st
  | Some svc =>
      let a := length (announces st) in
      let pkt := _records svc in
      let st := with_announces (announces st ++ [mkAnnounce s 1000 pkt]) st in
      let st := say (Register pkt) st in
      broadcast a st
  end.

(** *** probe (registry.js:107-148) *)

Definition probe (s : nat) (opts : value) (st : State) : State :=
  let p := length (probes st) in
  let st := with_probes (probes st ++ [mkProbe s opts false 0 None]) st in
  let st := with_response_listeners (response_listeners st ++ [p]) st in
  defer (CbSend p) Jitter st.

Definition send (p : nat) (st : State) : State :=
  match probes st !! p with
  | None => st
  | Some ctx =>
      match heap st !! p_service ctx with
      | None => st
      | Some svc =>
          if (negb (_activated svc) || _destroyed svc)%bool then st
          else defer (CbQuery p) Io (say (Query (fqdn svc)) st)
      end
  end.

(** The callback handed to [mdns.query] by [send]. *)
Definition send_cb (p : nat) (st : State) : State :=
  match probes st !! p with
  | None => st
  | Some ctx =>
      let r := S (retries ctx) in
      let t := length (loop st) in
      let st := defer (if (r <? 3)%nat then CbSend p else CbDone p) (Ms 250) st in
      with_probes (<[p := mkProbe (p_service ctx) (p_opts ctx) true r (Some t)]> (probes st)) st
  end.

Definition matchRR (svc : Service) (rr : RR) : bool :=
  dnsEqual (rr_name rr) (fqdn svc).

(** *** start (registry.js:37-84)

    [start s args] is [start.apply(service, args)]: the parameters
    [registry] and [opts] are the first two arguments, and further ones are
    dropped.  There is one registry, so [registry] itself is not passed
    around. *)
Definition start (s : nat) (args : list value) (st : State) : State :=
  match heap st !! s with
  | None => st
  | Some svc =>
      if _activated svc then st
      else
        let opts := nth 1 args VUndefined in
        let svc := set_activated true svc in
        let svc :=
          if truthy_name (_originalName svc) then svc
          else set_original (Some (name svc)) (Some 1%nat) svc in
        let st := set_service s svc st in
        let st := with_services (services st ++ [s]) st in
        let st := with_error_listeners (error_listeners st ++ [(s, opts)]) st in
        match opts_probe opts with
        | None => say (Throw "TypeError") st
        | Some true => probe s opts st
        | Some false => announce s st
        end
  end.

(** [service.start], as [publish] sets it: [start.bind(service, registry)],
    so the registry comes before whatever the caller passes. *)
Definition service_start (s : nat) (args : list value) (st : State) : State :=
  start s (VRegistry :: args) st.

(** The completion callback [start] hands to [probe] (registry.js:53-80). *)
Definition probed (p : nat) (found : bool) (st : State) : State :=
  match probes st !! p with
  | None => st
  | Some ctx =>
      let s := p_service ctx in
      if found then
        match heap st !! s with
        | None => st
        | Some svc =>
            let st := with_services (remove_first s (services st)) st in
            let n := option_map S (_nameAttempt svc) in
            let nm := (match _originalName svc with Some o => o | None => "undefined" end
                       ++ " (" ++ show_attempt n ++ ")")%string in
            let svc := set_name nm (nm ++ "." ++ type svc)%string
                         (set_attempt n (set_activated false svc)) in
            let st := set_service s svc st in
            let st := say (ConsoleLog ("Name conflict, retrying with " ++ dquote ++ nm ++ dquote)%string) st in
            service_start s [VRegistry; p_opts ctx] st
        end
      else announce s st
  end.

Definition done (p : nat) (found : bool) (st : State) : State :=
  match probes st !! p with
  | None => st
  | Some ctx =>
      let st := with_response_listeners
                  (List.filter (fun q => negb (Nat.eqb q p)) (response_listeners st)) st in
      let st := clearTimeout (timer ctx) st in
      probed p found (say (ProbeResult p (p_service ctx) found) st)
  end.

Definition onresponse (p : nat) (pkt : Packet) (st : State) : State :=
  match probes st !! p with
  | None => st
  | Some ctx =>
      if negb (sent ctx) then st
      else
        match heap st !! p_service ctx with
        | None => st
        | Some svc =>
            if (existsb (matchRR svc) (answers pkt)
                || existsb (matchRR svc) (additionals pkt))%bool
            then done p true st
            else st
        end
  end.

(** *** teardown (registry.js:191-218) *)

Definition is_activated (st : State) (s : nat) : bool :=
  match heap st !! s with
  | Some svc => _activated svc
  | None => false
  end.

Definition goodbye (r : RR) : RR := mkRR (rr_name r) (rr_type r) 0.

(** The function mapped over the selected services: it deactivates one
    service and returns its records with their TTL forced to 0. *)
Definition withdraw (acc : State * list RR) (s : nat) : State * list RR :=
  let '(st, rs) := acc in
  match heap st !! s with
  | None => (st, rs)
  | Some svc =>
      let svc := set_activated false svc in
      (set_service s svc st, rs ++ map goodbye (_records svc))
  end.

Definition teardown (ss : list nat) (cb : option nat) (st : State) : State :=
  let ss := List.filter (is_activated st) ss in
  let '(st, records) := fold_left withdraw ss (st, []) in
  match records with
  | [] => match cb with Some c => say (UserCallback c None) st | None => st end
  | _ => defer (CbGoodbye ss cb) Io (say (Respond records) (say (Unregister records) st))
  end.

(** The callback handed to [server.mdns.respond] by [teardown]; [result] is
    what the transport passes to it. *)
Definition teardown_cb (ss : list nat) (cb : option nat) (result : option string)
    (st : State) : State :=
  let unpublish st s :=
    match heap st !! s with
    | Some svc => set_service s (set_published false svc) st
    | None => st
    end in
  let st := fold_left unpublish ss st in
  match cb with Some c => say (UserCallback c result) st | None => st end.

(** *** stop (registry.js:86-93) *)

Definition stop (s : nat) (cb : option nat) (st : State) : State :=
  if negb (is_activated st s) then st
  else
    let st := teardown [s] cb st in
    with_services (remove_first s (services st)) st.

(** *** Registry (registry.js:13-35) *)

(** [opts.probe !== false], where [None] is an absent [probe]. *)
Definition publish (nm ty : string) (probe_opt : option bool) (st : State) : State :=
  let s := length (heap st) in
  let st := with_heap (heap st ++ [new_Service nm ty]) st in
  service_start s [VOpts (match probe_opt with Some false => false | _ => true end)] st.

Definition unpublishAll (cb : option nat) (st : State) : State :=
  let st := teardown (services st) cb st in
  with_services [] st.

Definition destroy (st : State) : State :=
  let mark st s :=
    match heap st !! s with
    | Some svc => set_service s (set_destroyed true svc) st
    | None => st
    end in
  fold_left mark (services st) st.

(** *** The 'error' listener (registry.js:47-49)

    [service.emit('error', err)], with [service] resolved in the scopes of
    the listener.  An identifier that resolves nowhere is a ReferenceError
    (the file is in strict mode). *)
Definition on_error (opts : value) (st : State) : State :=
  match resolve "service" (error_listener_scopes opts) with
  | Some (VService s) => say (Emit s "error") st
  | Some _ => say (Throw "TypeError") st
  | None => say (Throw "ReferenceError: service is not defined") st
  end.

(** [mdns.emit('error', err)]: the listeners run in the order they were
    added, and an exception thrown by one ends the emit.  Without any
    listener the emitter throws the error itself. *)
Definition emit_error (err : string) (st : State) : State :=
  match error_listeners st with
  | [] => say (Throw err) st
  | (_, opts) :: _ => on_error opts st
  end.

(** ** The environment *)

Inductive event :=
| Publish (nm ty : string) (probe_opt : option bool)   (* registry.publish(opts) *)
| Start (s : nat) (args : list value)                  (* service.start(...args) *)
| Stop (s : nat) (cb : option nat)                     (* service.stop(cb) *)
| UnpublishAll (cb : option nat)
| Destroy
| Timeout (t : nat)                                    (* timer [t] fires *)
| Complete (t : nat) (result : option string)          (* the transport calls callback [t] *)
| Response (pkt : Packet)                              (* mdns emits 'response' *)
| TransportError (err : string).                       (* mdns emits 'error' *)

Definition mark_ran (t : nat) (st : State) : State :=
  match loop st !! t with
  | Some (mkTask c w _) => with_loop (<[t := mkTask c w Ran]> (loop st)) st
  | None => st
  end.

Definition timeout (t : nat) (st : State) : State :=
  match loop st !! t with
  | Some (mkTask c Io Pending) => st
  | Some (mkTask c _ Pending) =>
      let st := mark_ran t st in
      match c with
      | CbSend p => send p st
      | CbDone p => done p false st
      | CbBroadcast a => broadcast a st
      | _ => st
      end
  | _ => st
  end.

Definition complete (t : nat) (result : option string) (st : State) : State :=
  match loop st !! t with
  | Some (mkTask c Io Pending) =>
      let st := mark_ran t st in
      match c with
      | CbQuery p => send_cb p st
      | CbRespond a => broadcast_cb a st
      | CbGoodbye ss cb => teardown_cb ss cb result st
      | _ => st
      end
  | _ => st
  end.

(** The listeners of 'response' present when the packet arrives each see
    it, in the order they were added. *)
Definition emit_response (pkt : Packet) (st : State) : State :=
  fold_left (fun st p => onresponse p pkt st) (response_listeners st) st.

Definition step (st : State) (e : event) : State :=
  match e with
  | Publish nm ty pr => publish nm ty pr st
  | Start s args => service_start s args st
  | Stop s cb => stop s cb st
  | UnpublishAll cb => unpublishAll cb st
  | Destroy => destroy st
  | Timeout t => timeout t st
  | Complete t r => complete t r st
  | Response pkt => emit_response pkt st
  | TransportError err => emit_error err st
  end.

Definition run (st : State) (evs : list event) : State := fold_left step evs st.

(** ** Observations on a state *)



(** The services on which the event [ev] has been emitted, in order. *)
Definition emitted (ev : string) (st : State) : list nat :=
  omap (fun a => match a with
                 | Emit s e => if String.eqb e ev then Some s else None
                 | _ => None
                 end) (log st).

(** The results the probes have reported to their completion callbacks. *)
Definition probe_results (st : State) : list (nat * bool) :=
  omap (fun a => match a with
                 | ProbeResult p _ found => Some (p, found)
                 | _ => None
                 end) (log st).

(** The names queried on the network, in order. *)
Definition queries (st : State) : list string :=
  omap (fun a => match a with Query q => Some q | _ => None end) (log st).


Definition is_collision (s : nat) (a : action) : bool :=
  match a with
  | ProbeResult _ s' true => Nat.eqb s' s
  | _ => false
  end.

(** How many probes of service [s] have ended with "exists". *)
Definition collisions (s : nat) (st : State) : nat :=
  length (List.filter (is_collision s) (log st)).

(** The delays of the timers set for [broadcast] of announce cycle [a],
    among the callbacks deferred since the loop had [from] entries. *)
Definition backoff_of (a : nat) (t : Task) : option Z :=
  match t with
  | mkTask (CbBroadcast a') (Ms d) _ => if Nat.eqb a' a then Some d else None
  | _ => None
  end.

Definition scheduled (a from : nat) (st : State) : list Z :=
  omap (backoff_of a) (drop from (loop st)).

(** The environment runs the callback deferred last: a cycle left alone. *)
Definition fire_last (st : State) : State :=
  let t := pred (length (loop st)) in
  match loop st !! t with
  | Some (mkTask _ Io _) => complete t None st
  | Some _ => timeout t st
  | None => st
  end.



(** [e] is the completion of a query of probe [p]: a transmission. *)
Definition transmits (p : nat) (st : State) (e : event) : bool :=
  match e with
  | Complete t _ =>
      match loop st !! t with
      | Some (mkTask (CbQuery p') Io Pending) => Nat.eqb p' p
      | _ => false
      end
  | _ => false
  end.

Fixpoint before_transmission (p : nat) (st : State) (evs : list event) : bool :=
  match evs with
  | [] => true
  | e :: r => (negb (transmits p st e) && before_transmission p (step st e) r)%bool
  end.

(** The event publishes no service with an empty name (an empty [name] is
    falsy, so [start] would take it for an original name not yet set). *)
Definition named (e : event) : bool :=
  match e with
  | Publish nm _ _ => negb (String.eqb nm EmptyString)
  | _ => true
  end.

(** The goodbye records of the services of [ss], in order. *)
Definition goodbyes (st : State) (ss : list nat) : list RR :=
  flat_map (fun s => match heap st !! s with
                     | Some svc => map goodbye (_records (set_activated false svc))
                     | None => []
                     end) ss.

Definition has_sent (st : State) (p : nat) : bool :=
  match probes st !! p with
  | Some ctx => sent ctx
  | None => false
  end.

(** ** Invariants and frames *)

(** Every probe is for a service of the store. *)
Definition probes_valid (st : State) : Prop :=
  Forall (fun n => (n < length (heap st))%nat) (map p_service (probes st)).

(** [frame f g s st st'] says that, from [st] to [st'], the store of services
    does not shrink, the service [s] keeps its [f], the log gains no action
    selected by [g], and the probes still refer to services of the store. *)
Record frame {X : Type} (f : Service -> X) (g : action -> bool) (s : nat)
    (st st' : State) : Prop := mkFrame {
  fr_length : (length (heap st) <= length (heap st'))%nat;
  fr_heap : f <$> heap st' !! s = f <$> heap st !! s;
  fr_log : List.filter g (log st') = List.filter g (log st);
  fr_probes : probes_valid st -> probes_valid st' }.

(** What the naming of a service consists of. *)
Definition naming (svc : Service) :=
  (name svc, type svc, fqdn svc, _originalName svc, _nameAttempt svc).

(** The service [s] is named as its history requires: [fqdn] follows [name]
    and [type], the original name is set, and [_nameAttempt] is one more
    than the number of collisions detected for it. *)
Definition well_named (st : State) (s : nat) (svc : Service) : Prop :=
  fqdn svc = (name svc ++ "." ++ type svc)%string
  /\ truthy_name (_originalName svc) = true
  /\ _nameAttempt svc = Some (1 + collisions s st)%nat.

Definition names_consistent (st : State) : Prop :=
  probes_valid st
  /\ (forall s, (length (heap st) <= s)%nat -> collisions s st = 0%nat)
  /\ (forall s svc, heap st !! s = Some svc -> well_named st s svc).

(** What goes out on the network: queries and broadcasts. *)
Definition is_tx (a : action) : bool :=
  match a with
  | Query _ | Respond _ => true
  | _ => false
  end.

Definition transmissions (st : State) : list action := List.filter is_tx (log st).

(** The delays of one full announce cycle, and the state of a cycle [a] of
    service [s] with packet [pkt] after [k] completed broadcasts while the
    callback [T], deferred last, is still to run: the timers set so far are
    the first [k] delays, and [q] broadcasts of [pkt] have gone out since the
    transmissions were [base]. *)
Definition backoff : list Z := [3000; 9000; 27000; 81000; 243000; 729000; 2187000].

Definition cycle_at (a s from k q : nat) (pkt : list RR) (base : list action)
    (T : Task) (X : State) : Prop :=
  exists P svc,
    loop X = P ++ [T]
    /\ (from <= length P)%nat
    /\ scheduled a from X = take k backoff
    /\ announces X !! a = Some (mkAnnounce s (nth k (1000 :: backoff) 0) pkt)
    /\ heap X !! s = Some svc
    /\ _activated svc = true
    /\ _destroyed svc = false
    /\ transmissions X = base ++ replicate q (Respond pkt).

Definition is_destroyed (st : State) (s : nat) : bool :=
  match heap st !! s with
  | Some svc => _destroyed svc
  | None => false
  end.

(** The timers of one announce cycle, whatever happens around it.  Either
    the cycle has completed [k] broadcasts, its delay is the [k]-th of
    1000, 3000, ..., 2187000 and its timers are the first [k] delays; or its
    delay has reached the cap and all seven timers have been set; or its
    service is destroyed and the timers are the delays up to some point. *)
Definition cycle_ok (st : State) (a : nat) (ctx : Announce) : Prop :=
  (exists k, (k <= 7)%nat
             /\ delay ctx = nth k (1000 :: backoff) 0
             /\ scheduled a 0 st = take k backoff)
  \/ (REANNOUNCE_MAX_MS <= delay ctx /\ scheduled a 0 st = backoff)
  \/ (is_destroyed st (a_service ctx) = true
      /\ exists j, scheduled a 0 st = take j backoff).

Definition cycles_ok (st : State) : Prop :=
  (forall a ctx, announces st !! a = Some ctx -> cycle_ok st a ctx)
  /\ (forall a, (length (announces st) <= a)%nat -> scheduled a 0 st = []).

(** From [st] to [st'] no announce cycle has moved: same cycles, same
    timers, and no destroyed service has come back. *)
Definition steady (st st' : State) : Prop :=
  announces st' = announces st
  /\ (forall a, scheduled a 0 st' = scheduled a 0 st)
  /\ (forall s, is_destroyed st s = true -> is_destroyed st' s = true).

(** ** Further observations *)

(** Every service of the store is destroyed. *)
Definition all_destroyed (st : State) : Prop :=
  Forall (fun svc => _destroyed svc = true) (heap st).

(** Events that come from the event loop and the transport, not from a
    caller of the registry. *)
Definition passive (e : event) : bool :=
  match e with
  | Timeout _ | Complete _ _ | Response _ | TransportError _ | Destroy => true
  | _ => false
  end.

(** No record of the packet carries the name of a service of the store. *)
Definition foreign (st : State) (pkt : Packet) : Prop :=
  forall rr svc, rr ∈ answers pkt ++ additionals pkt -> svc ∈ heap st ->
                 dnsEqual (rr_name rr) (fqdn svc) = false.

(** The active collection holds each service once, and only activated
    ones. *)
Definition collection_ok (st : State) : Prop :=
  NoDup (services st) /\ forall s, s ∈ services st -> is_activated st s = true.

(** A timer for [broadcast] stays below the cap. *)
Definition below_cap (t : Task) : Prop :=
  match t with
  | mkTask (CbBroadcast _) (Ms d) _ => 3000 <= d < REANNOUNCE_MAX_MS
  | _ => True
  end.

Definition backoff_bounded (st : State) : Prop :=
  Forall below_cap (loop st) /\ Forall (fun c => 1000 <= delay c) (announces st).

(** The state of probe [p] of service [s] while the callback [T], deferred
    last, is still to run: [k] queries have completed and [q] have been
    sent since the log was [base]. *)
Definition probe_at (p s : nat) (svc : Service) (k q : nat) (T : Task)
    (base : list action) (X : State) : Prop :=
  exists P ctx,
    loop X = P ++ [T]
    /\ probes X !! p = Some ctx
    /\ p_service ctx = s
    /\ retries ctx = k
    /\ heap X !! s = Some svc
    /\ log X = base ++ replicate q (Query (fqdn svc)).

(** From [st] to [st'] the active collection is the same and no activated
    service has been deactivated. *)
Definition grows (st st' : State) : Prop :=
  services st' = services st
  /\ forall s, is_activated st s = true -> is_activated st' s = true.



(** ** Theorems *)

(** *** stop on a service that is not activated *)

(** C10. [stop(callback)] on a service whose [_activated] flag is false
    returns at once: the whole state is unchanged, so nothing is torn down,
    the active collection is as it was and the callback is never called. *)
Theorem stop_inactive_noop (st : State) (s : nat) (cb : option nat) :
  is_activated st s = false ->
  stop s cb st = st.
Proof.
  intros H. unfold stop. now rewrite H.
Qed.

(** *** Helper lemmas: the store of services *)

Lemma fold_left_keeps {A B : Type} (P : A -> Prop) (f : A -> B -> A) (l : list B) :
  (forall a b, P a -> P (f a b)) -> forall a, P a -> P (fold_left f l a).
Proof.
  intros Hf. induction l as [|b l IH]; intros a Ha; simpl; auto.
Qed.

Lemma lookup_set_service s v st s' :
  heap (set_service s v st) !! s' =
  if decide (s = s' /\ (s < length (heap st))%nat) then Some v else heap st !! s'.
Proof.
  cbn. destruct (decide (s = s' /\ (s < length (heap st))%nat)) as [[-> Hlt]|Hn].
  - now apply list_lookup_insert_eq.
  - destruct (decide (s = s')) as [->|Hne].
    + rewrite list_insert_ge; [reflexivity|]. lia.
    + now apply list_lookup_insert_ne.
Qed.

Lemma lookup_set_service_eq s v st svc :
  heap st !! s = Some svc -> heap (set_service s v st) !! s = Some v.
Proof.
  intros H. rewrite lookup_set_service. apply lookup_lt_Some in H.
  destruct (decide _) as [_|Hn]; [reflexivity|]. exfalso. apply Hn. split; [reflexivity|lia].
Qed.

Lemma lookup_set_service_ne s v st s' :
  s <> s' -> heap (set_service s v st) !! s' = heap st !! s'.
Proof.
  intros H. rewrite lookup_set_service. destruct (decide _) as [[? _]|_]; [contradiction|reflexivity].
Qed.

Lemma length_set_service s v st : length (heap (set_service s v st)) = length (heap st).
Proof. cbn. apply length_insert. Qed.

Lemma goodbyes_deactivated x svc st l :
  heap st !! x = Some svc ->
  goodbyes (set_service x (set_activated false svc) st) l = goodbyes st l.
Proof.
  intros Hx. unfold goodbyes. apply flat_map_ext. intros s.
  rewrite lookup_set_service.
  destruct (decide _) as [[<- _]|_]; [|reflexivity]. now rewrite Hx.
Qed.

(** The store after the services of [l] have been deactivated in turn. *)
Lemma withdraw_fold (l : list nat) : forall st rs,
  exists h,
    fold_left withdraw l (st, rs) = (with_heap h st, rs ++ goodbyes st l)
    /\ length h = length (heap st)
    /\ (forall s, h !! s =
          if existsb (Nat.eqb s) l then set_activated false <$> heap st !! s
          else heap st !! s).
Proof.
  induction l as [|x l IH]; intros st rs.
  - exists (heap st). simpl. rewrite app_nil_r. destruct st; auto.
  - simpl fold_left.
    destruct (heap st !! x) as [svc|] eqn:Hx.
    + destruct (IH (set_service x (set_activated false svc) st)
                  (rs ++ map goodbye (_records (set_activated false svc)))) as (h & E & Hl & Hh).
      exists h. split; [|split].
      * rewrite E. f_equal. rewrite <- app_assoc. f_equal.
        rewrite (goodbyes_deactivated _ _ _ _ Hx).
        unfold goodbyes. simpl. now rewrite Hx.
      * now rewrite Hl, length_set_service.
      * intros s. rewrite Hh. simpl existsb. rewrite lookup_set_service.
        destruct (Nat.eqb_spec s x) as [->|Hne].
        -- destruct (decide _) as [_|Hn].
           ++ rewrite Hx. simpl. now destruct (existsb _ l).
           ++ exfalso. apply Hn. apply lookup_lt_Some in Hx. split; [reflexivity|lia].
        -- destruct (decide _) as [[E' _]|_]; [congruence|]. reflexivity.
    + destruct (IH st rs) as (h & E & Hl & Hh).
      exists h. split; [|split]; auto.
      * rewrite E. f_equal. f_equal. unfold goodbyes. simpl. now rewrite Hx.
      * intros s. rewrite Hh. simpl existsb.
        destruct (Nat.eqb_spec s x) as [->|Hne]; [|reflexivity].
        simpl. rewrite Hx. now destruct (existsb _ l).
Qed.

Lemma teardown_unfold ss cb st :
  exists h,
    length h = length (heap st)
    /\ (forall s, h !! s =
          if existsb (Nat.eqb s) (List.filter (is_activated st) ss)
          then set_activated false <$> heap st !! s
          else heap st !! s)
    /\ teardown ss cb st =
       let inc := List.filter (is_activated st) ss in
       let st1 := with_heap h st in
       match goodbyes st inc with
       | [] => match cb with Some c => say (UserCallback c None) st1 | None => st1 end
       | _ => defer (CbGoodbye inc cb) Io
                (say (Respond (goodbyes st inc)) (say (Unregister (goodbyes st inc)) st1))
       end.
Proof.
  destruct (withdraw_fold (List.filter (is_activated st) ss) st []) as (h & E & Hl & Hh).
  exists h. split; [exact Hl|]. split; [exact Hh|].
  unfold teardown. rewrite E. simpl app. reflexivity.
Qed.

(** *** Helper lemmas: what an operation leaves alone *)

Section Frame.

Context {X : Type} (f : Service -> X) (g : action -> bool) (s : nat).

Lemma frame_refl st : frame f g s st st.
Proof. now constructor. Qed.

Lemma frame_trans st1 st2 st3 :
  frame f g s st1 st2 -> frame f g s st2 st3 -> frame f g s st1 st3.
Proof.
  intros [A1 A2 A3 A4] [B1 B2 B3 B4]. constructor; try congruence; [lia|auto].
Qed.

(** An update that touches neither the store, nor the log, nor which service
    a probe is for. *)
Lemma frame_same st0 st st' :
  heap st' = heap st -> log st' = log st ->
  map p_service (probes st') = map p_service (probes st) ->
  frame f g s st0 st -> frame f g s st0 st'.
Proof.
  intros Hh Hl Hp H. apply (frame_trans _ _ _ H).
  constructor; try congruence; [now rewrite Hh|].
  unfold probes_valid. now rewrite Hh, Hp.
Qed.

Lemma frame_say a st0 st :
  g a = false -> frame f g s st0 st -> frame f g s st0 (say a st).
Proof.
  intros Ha H. apply (frame_trans _ _ _ H).
  constructor; try reflexivity; [|auto].
  cbn. rewrite List.filter_app. simpl. rewrite Ha. apply app_nil_r.
Qed.

Lemma frame_set_service s' v st0 st svc :
  heap st !! s' = Some svc -> (s' = s -> f v = f svc) ->
  frame f g s st0 st -> frame f g s st0 (set_service s' v st).
Proof.
  intros Hs Hf H. apply (frame_trans _ _ _ H). constructor.
  - now rewrite length_set_service.
  - rewrite lookup_set_service. destruct (decide _) as [[E _]|_]; [|reflexivity].
    subst s'. rewrite Hs. simpl. f_equal. auto.
  - reflexivity.
  - unfold probes_valid. now rewrite length_set_service.
Qed.

Lemma frame_fold {B : Type} (h : State -> B -> State) (l : list B) :
  (forall st b, frame f g s st (h st b)) ->
  forall st, frame f g s st (fold_left h l st).
Proof.
  intros Hh. induction l as [|b l IH]; intros st; simpl.
  - apply frame_refl.
  - eapply frame_trans; [apply Hh | apply IH].
Qed.

(** Peels the outermost update off the state on the right. *)
Ltac frame_peel :=
  lazymatch goal with
  | |- frame _ _ _ ?a ?a => apply frame_refl
  | |- frame _ _ _ _ (say _ _) => apply frame_say; [try reflexivity; auto|]
  | |- frame _ _ _ _ (set_service _ _ ?x) =>
      eapply (frame_set_service _ _ _ x); [eassumption|intros; auto|]
  | |- frame _ _ _ _ (defer _ _ ?x) => apply (frame_same _ x); [reflexivity..|]
  | |- frame _ _ _ _ (with_services _ ?x) => apply (frame_same _ x); [reflexivity..|]
  | |- frame _ _ _ _ (with_announces _ ?x) => apply (frame_same _ x); [reflexivity..|]
  | |- frame _ _ _ _ (with_response_listeners _ ?x) => apply (frame_same _ x); [reflexivity..|]
  | |- frame _ _ _ _ (with_error_listeners _ ?x) => apply (frame_same _ x); [reflexivity..|]
  | |- frame _ _ _ _ (with_loop _ ?x) => apply (frame_same _ x); [reflexivity..|]
  end.

Ltac frame_auto := cbv zeta; repeat (frame_peel || case_match).

Hypothesis Hf_activated : forall b svc, f (set_activated b svc) = f svc.
Hypothesis Hf_destroyed : forall b svc, f (set_destroyed b svc) = f svc.
Hypothesis Hg : forall a,
  match a with Emit _ _ | ProbeResult _ _ _ => True | _ => g a = false end.

Lemma frame_broadcast a st0 st :
  frame f g s st0 st -> frame f g s st0 (broadcast a st).
Proof.
  intros H. unfold broadcast. frame_auto; try assumption. apply (Hg (Respond _)).
Qed.

Lemma frame_broadcast_cb a st0 st :
  (forall ctx svc, announces st !! a = Some ctx ->
     heap st !! a_service ctx = Some svc -> published svc = false ->
     (a_service ctx = s -> f (set_published true (set_activated true svc)) = f svc)
     /\ g (Emit (a_service ctx) "up") = false) ->
  frame f g s st0 st -> frame f g s st0 (broadcast_cb a st).
Proof.
  intros Hup H. unfold broadcast_cb.
  destruct (announces st !! a) as [ctx|] eqn:Ha; [|assumption].
  destruct (heap st !! a_service ctx) as [svc|] eqn:Hs; [|assumption].
  specialize (Hup ctx svc eq_refl Hs).
  destruct (published svc); simpl negb; frame_auto; try assumption;
    try (now apply Hup); now apply Hup.
Qed.

Lemma frame_announce s' st0 st :
  frame f g s st0 st -> frame f g s st0 (announce s' st).
Proof.
  intros H. unfold announce. case_match; [|assumption].
  apply frame_broadcast. frame_auto; try assumption. apply (Hg (Register _)).
Qed.

Lemma frame_probe s' opts st0 st :
  (s' < length (heap st))%nat ->
  frame f g s st0 st -> frame f g s st0 (probe s' opts st).
Proof.
  intros Hlt H. unfold probe. frame_auto.
  apply (frame_trans _ _ _ H). constructor; try reflexivity.
  unfold probes_valid. cbn. rewrite map_app, Forall_app. intros Hv. split; [assumption|].
  simpl. constructor; [assumption|constructor].
Qed.

Lemma frame_send p st0 st :
  frame f g s st0 st -> frame f g s st0 (send p st).
Proof.
  intros H. unfold send. frame_auto; try assumption. apply (Hg (Query _)).
Qed.

Lemma frame_send_cb p st0 st :
  frame f g s st0 st -> frame f g s st0 (send_cb p st).
Proof.
  intros H. unfold send_cb. destruct (probes st !! p) as [ctx|] eqn:Hp; [|assumption].
  cbv zeta. apply (frame_same _ st); try reflexivity; [|assumption].
  cbn. rewrite list_fmap_insert. cbn. apply list_insert_id.
  rewrite list_lookup_fmap, Hp. reflexivity.
Qed.

Lemma frame_clearTimeout t st0 st :
  frame f g s st0 st -> frame f g s st0 (clearTimeout t st).
Proof.
  intros H. unfold clearTimeout. frame_auto; assumption.
Qed.

Lemma frame_mark_ran t st0 st :
  frame f g s st0 st -> frame f g s st0 (mark_ran t st).
Proof.
  intros H. unfold mark_ran. frame_auto; assumption.
Qed.

Lemma frame_teardown ss cb st0 st :
  frame f g s st0 st -> frame f g s st0 (teardown ss cb st).
Proof.
  intros H. destruct (teardown_unfold ss cb st) as (h & Hl & Hh & ->).
  cbv zeta.
  assert (F : frame f g s st0 (with_heap h st)).
  { apply (frame_trans _ _ _ H). constructor; try reflexivity.
    - cbn. now rewrite Hl.
    - cbn. rewrite Hh. destruct (existsb _ _); [|reflexivity].
      destruct (heap st !! s); simpl; [|reflexivity]. now rewrite Hf_activated.
    - unfold probes_valid. cbn. now rewrite Hl. }
  destruct (goodbyes st _).
  - destruct cb; [|assumption]. apply frame_say; [apply (Hg (UserCallback _ _))|assumption].
  - frame_auto; try assumption; [apply (Hg (Respond _))|apply (Hg (Unregister _))].
Qed.

Lemma frame_teardown_cb ss cb r st0 st :
  (existsb (Nat.eqb s) ss = true -> forall svc, f (set_published false svc) = f svc) ->
  frame f g s st0 st -> frame f g s st0 (teardown_cb ss cb r st).
Proof.
  intros Hpub H. unfold teardown_cb.
  set (un := fun st s0 => match heap st !! s0 with
                          | Some svc => set_service s0 (set_published false svc) st
                          | None => st end).
  assert (F : forall l st1,
             (forall x, existsb (Nat.eqb x) l = true -> existsb (Nat.eqb x) ss = true) ->
             frame f g s st0 st1 -> frame f g s st0 (fold_left un l st1)).
  { induction l as [|x l IH]; intros st1 Hsub F1; simpl; [assumption|].
    apply IH.
    - intros y Hy. apply Hsub. simpl. rewrite Hy. apply orb_true_r.
    - unfold un at 1. destruct (heap st1 !! x) as [svc|] eqn:Hx; [|assumption].
      eapply frame_set_service; [exact Hx| |assumption].
      intros ->. apply Hpub. apply Hsub. simpl. now rewrite Nat.eqb_refl. }
  specialize (F ss st (fun x Hx => Hx) H).
  destruct cb; [|assumption].
  apply frame_say; [apply (Hg (UserCallback _ _))|assumption].
Qed.

Lemma frame_stop s' cb st0 st :
  frame f g s st0 st -> frame f g s st0 (stop s' cb st).
Proof.
  intros H. unfold stop. case_match; [assumption|].
  frame_auto. now apply frame_teardown.
Qed.

Lemma frame_unpublishAll cb st0 st :
  frame f g s st0 st -> frame f g s st0 (unpublishAll cb st).
Proof.
  intros H. unfold unpublishAll. frame_auto. now apply frame_teardown.
Qed.

Lemma frame_destroy st0 st :
  frame f g s st0 st -> frame f g s st0 (destroy st).
Proof.
  intros H. unfold destroy. apply (frame_trans _ _ _ H).
  apply frame_fold. intros st1 s1. case_match; [|apply frame_refl].
  eapply frame_set_service; [eassumption| |apply frame_refl].
  intros _. apply Hf_destroyed.
Qed.

Lemma frame_emit_error err st0 st :
  frame f g s st0 st -> frame f g s st0 (emit_error err st).
Proof.
  intros H. unfold emit_error.
  destruct (error_listeners st) as [|[s' o] l].
  - apply frame_say; [apply (Hg (Throw _))|assumption].
  - unfold on_error. cbn. apply frame_say; [apply (Hg (Throw _))|assumption].
Qed.

(** [start] changes [_originalName] and [_nameAttempt] only while the
    original name is still falsy. *)
Lemma frame_start s' args st0 st :
  (s' = s -> forall svc, heap st !! s = Some svc ->
     truthy_name (_originalName svc) = false ->
     forall o n svc', f (set_original o n svc') = f svc') ->
  frame f g s st0 st -> frame f g s st0 (start s' args st).
Proof.
  intros Ho H. unfold start.
  destruct (heap st !! s') as [svc|] eqn:Hs; [|assumption].
  destruct (_activated svc); [assumption|].
  assert (F : frame f g s st0
            (with_error_listeners (error_listeners st ++ [(s', nth 1 args VUndefined)])
              (with_services (services st ++ [s'])
                 (set_service s'
                    (if truthy_name (_originalName (set_activated true svc))
                     then set_activated true svc
                     else set_original (Some (name (set_activated true svc))) (Some 1%nat)
                            (set_activated true svc)) st)))).
  { frame_auto; try assumption.
    - apply Hf_activated.
    - subst s'. rewrite (Ho eq_refl svc Hs); [apply Hf_activated|]. assumption. }
  cbv zeta. destruct (opts_probe _) as [[|]|].
  - apply frame_probe; [|exact F]. cbn. rewrite length_insert. now apply lookup_lt_Some in Hs.
  - apply frame_announce. exact F.
  - apply frame_say; [apply (Hg (Throw _))|exact F].
Qed.

Hypothesis Hf_original : forall o n svc, f (set_original o n svc) = f svc.
Hypothesis Hf_name : forall nm fq svc, f (set_name nm fq svc) = f svc.
Hypothesis Hf_attempt : forall n svc, f (set_attempt n svc) = f svc.
Hypothesis Hg_probe : forall p s' b, g (ProbeResult p s' b) = false.

Lemma frame_service_start s' args st0 st :
  frame f g s st0 st -> frame f g s st0 (service_start s' args st).
Proof.
  intros H. unfold service_start. apply frame_start; [|assumption].
  intros _ svc _ _. apply Hf_original.
Qed.

Lemma frame_probed p found st0 st :
  frame f g s st0 st -> frame f g s st0 (probed p found st).
Proof.
  intros H. unfold probed.
  destruct (probes st !! p) as [ctx|]; [|assumption].
  destruct found; [|now apply frame_announce].
  destruct (heap st !! p_service ctx) as [svc|] eqn:Hs; [|assumption].
  cbv zeta. apply frame_service_start. frame_auto; try assumption;
    try apply (Hg (ConsoleLog _));
    now rewrite Hf_name, Hf_attempt, Hf_activated.
Qed.

Lemma frame_done p found st0 st :
  frame f g s st0 st -> frame f g s st0 (done p found st).
Proof.
  intros H. unfold done. destruct (probes st !! p) as [ctx|]; [|assumption].
  cbv zeta. apply frame_probed. apply frame_say; [apply Hg_probe|].
  apply frame_clearTimeout. frame_auto. assumption.
Qed.

Lemma frame_onresponse p pkt st0 st :
  frame f g s st0 st -> frame f g s st0 (onresponse p pkt st).
Proof.
  intros H. unfold onresponse. repeat case_match; try assumption.
  now apply frame_done.
Qed.

Lemma frame_emit_response pkt st0 st :
  frame f g s st0 st -> frame f g s st0 (emit_response pkt st).
Proof.
  intros H. unfold emit_response. apply (frame_trans _ _ _ H).
  apply frame_fold. intros st1 p. apply frame_onresponse, frame_refl.
Qed.

Lemma frame_timeout t st0 st :
  frame f g s st0 st -> frame f g s st0 (timeout t st).
Proof.
  intros H. unfold timeout.
  destruct (loop st !! t) as [[c w [| |]]|]; try assumption;
    destruct w; try assumption; cbv zeta;
    destruct c; try (now apply frame_mark_ran);
    first [apply frame_send | apply frame_done | apply frame_broadcast];
    now apply frame_mark_ran.
Qed.

Lemma frame_publish nm ty pr st0 st :
  (s < length (heap st))%nat ->
  frame f g s st0 st -> frame f g s st0 (publish nm ty pr st).
Proof.
  intros Hlt H. unfold publish. cbv zeta. apply frame_service_start.
  apply (frame_trans _ _ _ H). constructor; try reflexivity.
  - cbn. rewrite length_app. lia.
  - cbn. now rewrite lookup_app_l.
  - unfold probes_valid. cbn. rewrite length_app.
    intros Hv. eapply Forall_impl; [exact Hv|]. cbn. intros; lia.
Qed.


End Frame.

(** *** Helper lemmas: the [sent] flag of a probe *)

Ltac same_field := intros; repeat (progress cbn || case_match); try reflexivity.

Lemma probes_broadcast a st : probes (broadcast a st) = probes st.
Proof. unfold broadcast. same_field. Qed.

Lemma probes_broadcast_cb a st : probes (broadcast_cb a st) = probes st.
Proof. unfold broadcast_cb. same_field. Qed.

Lemma probes_announce s st : probes (announce s st) = probes st.
Proof. unfold announce. case_match; [|reflexivity]. now rewrite probes_broadcast. Qed.

Lemma probes_send p st : probes (send p st) = probes st.
Proof. unfold send. same_field. Qed.

Lemma probes_clearTimeout t st : probes (clearTimeout t st) = probes st.
Proof. unfold clearTimeout. same_field. Qed.

Lemma probes_mark_ran t st : probes (mark_ran t st) = probes st.
Proof. unfold mark_ran. same_field. Qed.

Lemma probes_teardown ss cb st : probes (teardown ss cb st) = probes st.
Proof.
  destruct (teardown_unfold ss cb st) as (h & _ & _ & ->). same_field.
Qed.

Lemma probes_teardown_cb ss cb r st : probes (teardown_cb ss cb r st) = probes st.
Proof.
  unfold teardown_cb.
  match goal with |- context [fold_left ?h ss st] =>
    assert (E : probes (fold_left h ss st) = probes st)
      by (apply (fold_left_keeps (fun x => probes x = probes st)); [|reflexivity];
          intros a b <-; same_field) end.
  destruct cb; cbn; exact E.
Qed.

Lemma probes_stop s cb st : probes (stop s cb st) = probes st.
Proof. unfold stop. case_match; [reflexivity|]. cbn. apply probes_teardown. Qed.

Lemma probes_unpublishAll cb st : probes (unpublishAll cb st) = probes st.
Proof. unfold unpublishAll. cbn. apply probes_teardown. Qed.

Lemma probes_destroy st : probes (destroy st) = probes st.
Proof.
  unfold destroy.
  apply (fold_left_keeps (fun x => probes x = probes st)); [|reflexivity].
  intros a b <-. same_field.
Qed.

Lemma probes_emit_error err st : probes (emit_error err st) = probes st.
Proof. unfold emit_error, on_error. same_field. Qed.

Lemma sent_same st st' p : probes st' = probes st -> has_sent st' p = has_sent st p.
Proof. unfold has_sent. now intros ->. Qed.

Lemma sent_probe s opts st p : has_sent (probe s opts st) p = has_sent st p.
Proof.
  unfold probe, has_sent. cbn.
  destruct (decide (p < length (probes st))%nat) as [Hlt|Hge].
  - now rewrite lookup_app_l.
  - rewrite lookup_app_r by lia. rewrite (lookup_ge_None_2 (probes st)) by lia.
    destruct (p - length (probes st))%nat as [|k]; [reflexivity|].
    now destruct k.
Qed.

Lemma sent_start s args st p : has_sent (start s args st) p = has_sent st p.
Proof.
  unfold start. repeat case_match; try reflexivity; cbv zeta;
    rewrite ?sent_probe; apply sent_same; rewrite ?probes_announce; reflexivity.
Qed.

Lemma sent_probed q found st p : has_sent (probed q found st) p = has_sent st p.
Proof.
  unfold probed, service_start. repeat case_match; try reflexivity; cbv zeta;
    rewrite ?sent_start; apply sent_same; rewrite ?probes_announce; reflexivity.
Qed.

Lemma sent_done q found st p : has_sent (done q found st) p = has_sent st p.
Proof.
  unfold done. case_match; [|reflexivity]. cbv zeta.
  rewrite sent_probed. apply sent_same. cbn. now rewrite probes_clearTimeout.
Qed.

Lemma sent_onresponse q pkt st p : has_sent (onresponse q pkt st) p = has_sent st p.
Proof.
  unfold onresponse. repeat case_match; try reflexivity. apply sent_done.
Qed.

Lemma sent_emit_response pkt st p : has_sent (emit_response pkt st) p = has_sent st p.
Proof.
  unfold emit_response.
  apply (fold_left_keeps (fun x => has_sent x p = has_sent st p)); [|reflexivity].
  intros a b <-. apply sent_onresponse.
Qed.

Lemma sent_timeout t st p : has_sent (timeout t st) p = has_sent st p.
Proof.
  unfold timeout. repeat case_match; try reflexivity; cbv zeta;
    rewrite ?sent_done; apply sent_same;
    rewrite ?probes_send, ?probes_broadcast; apply probes_mark_ran.
Qed.

Lemma sent_publish nm ty pr st p : has_sent (publish nm ty pr st) p = has_sent st p.
Proof. unfold publish, service_start. cbv zeta. now rewrite sent_start. Qed.

(** The callback of a query sets [sent] of its own probe only. *)
Lemma sent_send_cb q st p : q <> p -> has_sent (send_cb q st) p = has_sent st p.
Proof.
  intros Hne. unfold send_cb. case_match; [|reflexivity].
  unfold has_sent. cbn. now rewrite list_lookup_insert_ne.
Qed.

Lemma sent_step e st p :
  transmits p st e = false -> has_sent (step st e) p = has_sent st p.
Proof.
  intros Ht. destruct e; simpl.
  - apply sent_publish.
  - unfold service_start. apply sent_start.
  - apply sent_same, probes_stop.
  - apply sent_same, probes_unpublishAll.
  - apply sent_same, probes_destroy.
  - apply sent_timeout.
  - unfold complete. simpl in Ht.
    destruct (loop st !! t) as [[c w [| |]]|]; try reflexivity;
      destruct w; try reflexivity. cbv zeta.
    destruct c; try (apply sent_same, probes_mark_ran).
    + rewrite sent_send_cb; [apply sent_same, probes_mark_ran|].
      intros ->. now rewrite Nat.eqb_refl in Ht.
    + apply sent_same. now rewrite probes_broadcast_cb, probes_mark_ran.
    + apply sent_same. now rewrite probes_teardown_cb, probes_mark_ran.
  - apply sent_emit_response.
  - apply sent_same, probes_emit_error.
Qed.

Lemma sent_run evs : forall st p,
  before_transmission p st evs = true -> has_sent (run st evs) p = has_sent st p.
Proof.
  unfold run. induction evs as [|e evs IH]; intros st p H; simpl in *; [reflexivity|].
  apply andb_true_iff in H as [H1 H2]. apply negb_true_iff in H1.
  rewrite IH by assumption. now apply sent_step.
Qed.

(** *** The stale-packet rule *)

(** C6. From the call of [probe] until the first of its queries has
    completed (the first transmission), whatever else happens, a response
    packet is ignored by that probe: its listener returns with the state
    untouched, so it neither finalizes the probe nor reports "exists", also
    when the packet names the candidate fqdn. *)
Theorem response_before_first_transmission_ignored
    (st : State) (s : nat) (opts : value) (evs : list event) (pkt : Packet) :
  let p := length (probes st) in
  let st' := run (probe s opts st) evs in
  before_transmission p (probe s opts st) evs = true ->
  onresponse p pkt st' = st'.
Proof.
  intros p st' H.
  assert (Hs : has_sent st' p = false).
  { unfold st'. rewrite sent_run by assumption. rewrite sent_probe.
    unfold has_sent, p. now rewrite lookup_ge_None_2. }
  unfold onresponse. unfold has_sent in Hs.
  destruct (probes st' !! p) as [ctx|]; [|reflexivity].
  now rewrite Hs.
Qed.

(** *** The "up" notification *)

Ltac frame_side :=
  first [ exact I | reflexivity | assumption
        | intros []; first [exact I | reflexivity]
        | intros; reflexivity ].





(** *** Names and name attempts *)

Lemma names_frame st st' :
  (forall s, frame naming (is_collision s) s st st') ->
  names_consistent st -> names_consistent st'.
Proof.
  intros F (Hv & Hc & Hn). split; [|split].
  - now apply (fr_probes _ _ _ _ _ (F 0%nat)).
  - intros s Hs. destruct (F s) as [Hl _ Hlog _].
    unfold collisions. rewrite Hlog. apply Hc. lia.
  - intros s svc' Hs. destruct (F s) as [_ Hh Hlog _].
    rewrite Hs in Hh. destruct (heap st !! s) as [svc|] eqn:Hs0; [|discriminate].
    simpl in Hh. injection Hh as E1 E2 E3 E4 E5.
    destruct (Hn s svc Hs0) as (A & B & C). unfold well_named, collisions.
    rewrite Hlog, E1, E2, E3, E4, E5. auto.
Qed.

Ltac names_side :=
  first [ exact I | reflexivity | assumption
        | intros []; first [exact I | reflexivity]
        | intros; reflexivity ].

Lemma names_start s args st :
  names_consistent st -> names_consistent (start s args st).
Proof.
  intros H. apply (names_frame st); [|assumption]. intros s0.
  apply frame_start; [names_side..| |apply frame_refl].
  intros -> svc Hs Ht. destruct H as (_ & _ & Hn).
  destruct (Hn _ _ Hs) as (_ & B & _). congruence.
Qed.

Lemma names_announce s st :
  names_consistent st -> names_consistent (announce s st).
Proof.
  intros H. apply (names_frame st); [|assumption]. intros s0.
  apply frame_announce; [names_side..|apply frame_refl].
Qed.

Lemma heap_clearTimeout t st : heap (clearTimeout t st) = heap st.
Proof. unfold clearTimeout. same_field. Qed.

Lemma log_clearTimeout t st : log (clearTimeout t st) = log st.
Proof. unfold clearTimeout. same_field. Qed.

Lemma collisions_say s a st :
  collisions s (say a st) = (collisions s st + if is_collision s a then 1 else 0)%nat.
Proof.
  unfold collisions. cbn. rewrite List.filter_app, length_app. cbn.
  now destruct (is_collision s a).
Qed.

(** The conflict branch: one more collision, one more attempt, and a name
    and fqdn rebuilt from the original name. *)
Lemma names_done p found st :
  names_consistent st -> names_consistent (done p found st).
Proof.
  intros H. unfold done.
  destruct (probes st !! p) as [ctx|] eqn:Hp; [|assumption].
  cbv zeta.
  set (Z0 := clearTimeout (timer ctx)
               (with_response_listeners
                  (List.filter (fun q => negb (q =? p)%nat) (response_listeners st)) st)).
  assert (Hprobes : probes Z0 = probes st)
    by (unfold Z0; now rewrite probes_clearTimeout).
  assert (Hheap : heap Z0 = heap st)
    by (unfold Z0; now rewrite heap_clearTimeout).
  assert (Hlog : log Z0 = log st)
    by (unfold Z0; now rewrite log_clearTimeout).
  destruct found.
  - (* exists *)
    unfold probed. cbn [probes say with_log]. rewrite Hprobes, Hp.
    cbn [heap say with_log]. rewrite Hheap.
    destruct H as (Hv & Hc & Hn).
    assert (Hlt : (p_service ctx < length (heap st))%nat).
    { unfold probes_valid in Hv. rewrite Forall_forall in Hv. apply Hv.
      apply list_elem_of_In. apply in_map. apply list_elem_of_In.
      eapply list_elem_of_lookup_2. exact Hp. }
    destruct (lookup_lt_is_Some_2 _ _ Hlt) as [svc Hs]. rewrite Hs.
    cbv zeta. unfold service_start. apply names_start.
    destruct (Hn _ _ Hs) as (A & B & C).
    match goal with |- names_consistent ?y => set (Y := y) end.
    assert (EY : forall s, collisions s Y
                 = (collisions s st + if (p_service ctx =? s)%nat then 1 else 0)%nat).
    { intros s. unfold collisions, Y. cbn -[List.filter].
      rewrite Hlog, !List.filter_app, !length_app. cbn.
      destruct (p_service ctx =? s)%nat; cbn; lia. }
    assert (HY : (heap Y = <[p_service ctx :=
                   set_name
                     (match _originalName svc with Some o => o | None => "undefined" end
                      ++ " (" ++ show_attempt (option_map S (_nameAttempt svc)) ++ ")")
                     ((match _originalName svc with Some o => o | None => "undefined" end
                       ++ " (" ++ show_attempt (option_map S (_nameAttempt svc)) ++ ")")
                      ++ "." ++ type svc)
                     (set_attempt (option_map S (_nameAttempt svc))
                        (set_activated false svc))]> (heap st))%string).
    { unfold Y. cbn. now rewrite Hheap. }
    split; [|split].
    + unfold probes_valid. rewrite HY, length_insert.
      change (probes Y) with (probes Z0). rewrite Hprobes. exact Hv.
    + intros s Hs0. rewrite HY, length_insert in Hs0.
      rewrite EY, (Hc s Hs0).
      destruct (Nat.eqb_spec (p_service ctx) s); [lia|reflexivity].
    + intros s svc0 Hs0. unfold well_named.
      rewrite EY. rewrite HY in Hs0.
      destruct (Nat.eqb_spec (p_service ctx) s) as [<-|Hne].
      * rewrite list_lookup_insert_eq in Hs0 by assumption.
        injection Hs0 as <-. cbn. rewrite C. cbn.
        split; [reflexivity|]. split; [assumption|]. f_equal. lia.
      * rewrite list_lookup_insert_ne in Hs0 by assumption.
        destruct (Hn _ _ Hs0) as (A' & B' & C').
        split; [assumption|]. split; [assumption|]. rewrite C'. f_equal. lia.
  - (* not exists *)
    unfold probed. cbn [probes say with_log]. rewrite Hprobes, Hp.
    apply names_announce. apply (names_frame st); [|assumption]. intros s0.
    apply frame_say; [reflexivity|]. apply frame_clearTimeout.
    apply (frame_same _ _ _ _ st); try reflexivity. apply frame_refl.
Qed.

Lemma names_emit_response pkt st :
  names_consistent st -> names_consistent (emit_response pkt st).
Proof.
  unfold emit_response. apply fold_left_keeps. intros a p H.
  unfold onresponse. repeat case_match; try assumption. now apply names_done.
Qed.

Lemma names_publish nm ty pr st :
  String.eqb nm EmptyString = false ->
  names_consistent st -> names_consistent (publish nm ty pr st).
Proof.
  intros Hnm (Hv & Hc & Hn). unfold publish, service_start, start. cbv zeta.
  cbn [heap with_heap]. rewrite list_lookup_middle by reflexivity.
  cbn [_activated new_Service truthy_name _originalName set_activated].
  set (svc0 := set_original _ _ _).
  set (X0 := with_error_listeners _ _).
  assert (HX : names_consistent X0).
  { split; [|split].
    - unfold probes_valid. cbn. rewrite length_insert, length_app.
      eapply Forall_impl; [exact Hv|]. cbn. intros; lia.
    - intros s Hs. cbn in Hs. rewrite length_insert, length_app in Hs.
      cbn in Hs. apply Hc. lia.
    - intros s svc Hs. cbn in Hs.
      destruct (decide (s = length (heap st))) as [->|Hne].
      + rewrite list_lookup_insert_eq in Hs by (rewrite length_app; cbn; lia).
        injection Hs as <-.
        assert (E0 : collisions (length (heap st)) X0 = 0%nat)
          by exact (Hc _ (Nat.le_refl _)).
        unfold well_named. rewrite E0. cbn.
        rewrite Hnm. split; [reflexivity|]. split; reflexivity.
      + rewrite list_lookup_insert_ne in Hs by congruence.
        assert (Hlt : (s < length (heap st))%nat).
        { apply lookup_lt_Some in Hs. rewrite length_app in Hs. cbn in Hs. lia. }
        rewrite lookup_app_l in Hs by assumption.
        exact (Hn _ _ Hs). }
  assert (Hlen : (length (heap st) < length (heap X0))%nat).
  { cbn. rewrite length_insert, length_app. cbn. lia. }
  destruct (opts_probe _) as [[|]|].
  - apply (names_frame X0); [|assumption]. intros s0.
    apply frame_probe; [names_side..|assumption|apply frame_refl].
  - now apply names_announce.
  - apply (names_frame X0); [|assumption]. intros s0.
    apply frame_say; [reflexivity|apply frame_refl].
Qed.

Lemma names_mark_ran t st :
  names_consistent st -> names_consistent (mark_ran t st).
Proof.
  intros H. apply (names_frame st); [|assumption]. intros s0.
  apply frame_mark_ran, frame_refl.
Qed.

Lemma names_step e st :
  named e = true -> names_consistent st -> names_consistent (step st e).
Proof.
  intros He H. destruct e; simpl.
  - apply names_publish; [|assumption]. simpl in He. now apply negb_true_iff in He.
  - now apply names_start.
  - apply (names_frame st); [|assumption]. intros s0.
    apply frame_stop; [names_side..|apply frame_refl].
  - apply (names_frame st); [|assumption]. intros s0.
    apply frame_unpublishAll; [names_side..|apply frame_refl].
  - apply (names_frame st); [|assumption]. intros s0.
    apply frame_destroy; [names_side..|apply frame_refl].
  - unfold timeout.
    destruct (loop st !! t) as [[c w [| |]]|]; try assumption;
      destruct w; try assumption; cbv zeta;
      (destruct c; try (now apply names_mark_ran);
       [ apply (names_frame (mark_ran t st)); [|now apply names_mark_ran];
         intros s0; apply frame_send; [names_side..|apply frame_refl]
       | now apply names_done, names_mark_ran
       | apply (names_frame (mark_ran t st)); [|now apply names_mark_ran];
         intros s0; apply frame_broadcast; [names_side..|apply frame_refl] ]).
  - unfold complete.
    destruct (loop st !! t) as [[c w [| |]]|]; try assumption;
      destruct w; try assumption; cbv zeta.
    destruct c; try (now apply names_mark_ran);
      (apply (names_frame (mark_ran t st)); [|now apply names_mark_ran]; intros s0).
    + apply frame_send_cb, frame_refl.
    + apply frame_broadcast_cb; [names_side..| |apply frame_refl].
      intros; split; reflexivity.
    + apply frame_teardown_cb; [names_side..| |apply frame_refl].
      intros; reflexivity.
  - now apply names_emit_response.
  - apply (names_frame st); [|assumption]. intros s0.
    apply frame_emit_error; [names_side..|apply frame_refl].
Qed.

Lemma names_run evs : forall st,
  forallb named evs = true -> names_consistent st -> names_consistent (run st evs).
Proof.
  unfold run. induction evs as [|e evs IH]; intros st He H; simpl in *; [assumption|].
  apply andb_true_iff in He as [H1 H2]. apply IH; [assumption|]. now apply names_step.
Qed.

Lemma names_init : names_consistent init.
Proof.
  split; [constructor|]. split; [reflexivity|]. intros s svc Hs. discriminate.
Qed.

(** C9. Whatever the registry has gone through since it was created
    (publishing services with non-empty names), every service has its
    [fqdn] equal to [name + "." + type], and its [_nameAttempt] is 1 plus
    the number of collisions detected for it: it starts at 1 and each
    collision adds exactly 1. *)
Theorem name_attempt_counts_collisions (evs : list event) (s : nat) (svc : Service) :
  forallb named evs = true ->
  heap (run init evs) !! s = Some svc ->
  fqdn svc = (name svc ++ "." ++ type svc)%string
  /\ _nameAttempt svc = Some (1 + collisions s (run init evs))%nat.
Proof.
  intros He Hs.
  destruct (names_run evs init He names_init) as (_ & _ & Hn).
  destruct (Hn s svc Hs) as (A & _ & C). auto.
Qed.

(** *** Teardown *)

Lemma unpublish_fold (l : list nat) : forall st,
  let un := fun st s => match heap st !! s with
                        | Some svc => set_service s (set_published false svc) st
                        | None => st
                        end in
  exists h,
    fold_left un l st = with_heap h st
    /\ (forall s, h !! s =
          if existsb (Nat.eqb s) l then set_published false <$> heap st !! s
          else heap st !! s).
Proof.
  induction l as [|x l IH]; intros st un.
  - exists (heap st). split; [now destruct st|reflexivity].
  - simpl fold_left. unfold un at 2.
    destruct (heap st !! x) as [svc|] eqn:Hx.
    + destruct (IH (set_service x (set_published false svc) st)) as (h & E & Hh).
      exists h. split; [exact E|].
      intros s. rewrite Hh. simpl existsb. rewrite lookup_set_service.
      destruct (Nat.eqb_spec s x) as [->|Hne].
      * destruct (decide _) as [_|Hn].
        -- rewrite Hx. simpl. now destruct (existsb _ l).
        -- exfalso. apply Hn. apply lookup_lt_Some in Hx. split; [reflexivity|lia].
      * destruct (decide _) as [[E' _]|_]; [congruence|]. reflexivity.
    + destruct (IH st) as (h & E & Hh). exists h. split; [exact E|].
      intros s. rewrite Hh. simpl existsb.
      destruct (Nat.eqb_spec s x) as [->|Hne]; [|reflexivity].
      simpl. rewrite Hx. now destruct (existsb _ l).
Qed.




(** *** The announce backoff *)

Lemma transmissions_say a st :
  transmissions (say a st) = transmissions st ++ (if is_tx a then [a] else []).
Proof.
  unfold transmissions. cbn. rewrite List.filter_app. cbn. now destruct (is_tx a).
Qed.

Lemma transmissions_same st st' : log st' = log st -> transmissions st' = transmissions st.
Proof. unfold transmissions. now intros ->. Qed.

Lemma scheduled_snoc a from P T X :
  loop X = P ++ [T] -> (from <= length P)%nat ->
  scheduled a from X =
  omap (backoff_of a) (drop from P)
  ++ match backoff_of a T with Some d => [d] | None => [] end.
Proof.
  intros E Hle. unfold scheduled. rewrite E. rewrite drop_app_le by assumption.
  rewrite omap_app. f_equal.
Qed.

Lemma fire_last_snoc P T X :
  loop X = P ++ [T] ->
  fire_last X = match T with
                | mkTask _ Io _ => complete (length P) None X
                | _ => timeout (length P) X
                end.
Proof.
  intros E. unfold fire_last. rewrite E. rewrite length_app. cbn [length].
  replace (pred (length P + 1)) with (length P) by lia.
  rewrite list_lookup_middle by reflexivity. now destruct T as [c [| |] st].
Qed.

Lemma mark_ran_snoc P c w st0 X :
  loop X = P ++ [mkTask c w st0] ->
  mark_ran (length P) X = with_loop (P ++ [mkTask c w Ran]) X.
Proof.
  intros E. unfold mark_ran. rewrite E. rewrite list_lookup_middle by reflexivity.
  f_equal. rewrite insert_app_r_alt by lia. now rewrite Nat.sub_diag.
Qed.

(** Tripling a delay of the sequence gives the next one, which is below the
    cap up to the seventh. *)
Lemma backoff_next k :
  (k < 7)%nat ->
  nth k (1000 :: backoff) 0 * REANNOUNCE_FACTOR = nth (S k) (1000 :: backoff) 0
  /\ (nth (S k) (1000 :: backoff) 0 <? REANNOUNCE_MAX_MS) = true
  /\ take (S k) backoff = take k backoff ++ [nth (S k) (1000 :: backoff) 0].
Proof. intros Hk. do 7 (destruct k as [|k]; [repeat split|]). lia. Qed.

(** A broadcast completes: the delay is tripled and, below the cap, the next
    broadcast is set to run after it.  Nothing goes out. *)
Lemma cycle_complete a s from k q pkt base X :
  (k < 7)%nat ->
  cycle_at a s from k q pkt base (mkTask (CbRespond a) Io Pending) X ->
  cycle_at a s from (S k) q pkt base
    (mkTask (CbBroadcast a) (Ms (nth (S k) (1000 :: backoff) 0)) Pending) (fire_last X).
Proof.
  intros Hk (P & svc & E & Hle & Hs & Ha & Hh & Hact & Hdes & Htx).
  rewrite (fire_last_snoc _ _ _ E). unfold complete.
  rewrite E. rewrite list_lookup_middle by reflexivity. cbv zeta.
  rewrite (mark_ran_snoc _ _ _ _ _ E).
  unfold broadcast_cb. cbn [announces with_loop heap]. rewrite Ha. cbn [a_service].
  rewrite Hh. cbv zeta. cbn [delay packet]. rewrite Hdes.
  destruct (backoff_next k Hk) as (Hd1 & Hd2 & Hd3). rewrite Hd1, Hd2. cbn [andb negb].
  rewrite (scheduled_snoc _ _ _ _ _ E Hle) in Hs. cbn in Hs. rewrite app_nil_r in Hs.
  destruct (published svc); cbn [negb].
  - exists (P ++ [mkTask (CbRespond a) Io Ran]), svc.
    split; [reflexivity|]. split. { rewrite length_app. lia. }
    split.
    { rewrite (scheduled_snoc a from (P ++ [mkTask (CbRespond a) Io Ran])
                 (mkTask (CbBroadcast a) (Ms (nth (S k) (1000 :: backoff) 0)) Pending));
        [|reflexivity|rewrite length_app; lia].
      rewrite drop_app_le by assumption. rewrite omap_app, Hs, Hd3.
      cbn [omap list_omap backoff_of]. now rewrite Nat.eqb_refl, app_nil_r. }
    split; [cbn; apply list_lookup_insert_eq; now apply lookup_lt_Some in Ha|].
    split; [exact Hh|]. split; [exact Hact|]. split; [exact Hdes|]. exact Htx.
  - exists (P ++ [mkTask (CbRespond a) Io Ran]),
      (set_published true (set_activated true svc)).
    split; [reflexivity|]. split. { rewrite length_app. lia. }
    split.
    { rewrite (scheduled_snoc a from (P ++ [mkTask (CbRespond a) Io Ran])
                 (mkTask (CbBroadcast a) (Ms (nth (S k) (1000 :: backoff) 0)) Pending));
        [|reflexivity|rewrite length_app; lia].
      rewrite drop_app_le by assumption. rewrite omap_app, Hs, Hd3.
      cbn [omap list_omap backoff_of]. now rewrite Nat.eqb_refl, app_nil_r. }
    split; [cbn; apply list_lookup_insert_eq; now apply lookup_lt_Some in Ha|].
    split; [cbn; apply list_lookup_insert_eq; now apply lookup_lt_Some in Hh|].
    split; [reflexivity|]. split; [exact Hdes|].
    rewrite <- Htx. unfold transmissions.
    cbn [log defer with_loop with_announces say with_log set_service with_heap].
    rewrite List.filter_app. cbn [List.filter is_tx]. apply app_nil_r.
Qed.

(** The timer fires: the next broadcast goes out, with the delay unchanged. *)
Lemma cycle_timeout a s from k q pkt base d X :
  cycle_at a s from k q pkt base (mkTask (CbBroadcast a) (Ms d) Pending) X ->
  cycle_at a s from k (S q) pkt base (mkTask (CbRespond a) Io Pending) (fire_last X).
Proof.
  intros (P & svc & E & Hle & Hs & Ha & Hh & Hact & Hdes & Htx).
  rewrite (fire_last_snoc _ _ _ E). unfold timeout.
  rewrite E. rewrite list_lookup_middle by reflexivity. cbv zeta.
  rewrite (mark_ran_snoc _ _ _ _ _ E).
  unfold broadcast. cbn [announces with_loop heap]. rewrite Ha. cbn [a_service].
  rewrite Hh, Hact, Hdes. cbn [negb orb packet].
  exists (P ++ [mkTask (CbBroadcast a) (Ms d) Ran]), svc.
  split; [reflexivity|]. split. { rewrite length_app. lia. }
  split.
  { rewrite (scheduled_snoc a from (P ++ [mkTask (CbBroadcast a) (Ms d) Ran])
               (mkTask (CbRespond a) Io Pending)); [|reflexivity|rewrite length_app; lia].
    rewrite (scheduled_snoc _ _ _ _ _ E Hle) in Hs.
    rewrite drop_app_le by assumption. rewrite omap_app.
    cbn [omap list_omap backoff_of] in *. rewrite app_nil_r. exact Hs. }
  split; [exact Ha|]. split; [exact Hh|]. split; [exact Hact|]. split; [exact Hdes|].
  unfold transmissions in *.
  cbn [log defer with_loop say with_log]. rewrite List.filter_app, Htx.
  cbn [List.filter is_tx]. rewrite <- app_assoc. f_equal. symmetry.
  apply replicate_cons_app.
Qed.

(** The eighth broadcast completes: tripling the delay reaches the cap, and
    nothing more is deferred or sent. *)
Lemma cycle_end a s from q pkt base X :
  cycle_at a s from 7 q pkt base (mkTask (CbRespond a) Io Pending) X ->
  scheduled a from (fire_last X) = backoff
  /\ transmissions (fire_last X) = base ++ replicate q (Respond pkt)
  /\ fire_last (fire_last X) = fire_last X.
Proof.
  intros (P & svc & E & Hle & Hs & Ha & Hh & Hact & Hdes & Htx).
  rewrite (fire_last_snoc _ _ _ E). unfold complete.
  rewrite E. rewrite list_lookup_middle by reflexivity. cbv zeta.
  rewrite (mark_ran_snoc _ _ _ _ _ E).
  unfold broadcast_cb. cbn [announces with_loop heap]. rewrite Ha. cbn [a_service].
  rewrite Hh. cbv zeta. cbn [delay packet].
  change (nth 7 (1000 :: backoff) 0 * REANNOUNCE_FACTOR <? REANNOUNCE_MAX_MS) with false.
  cbn [andb].
  rewrite (scheduled_snoc _ _ _ _ _ E Hle) in Hs. cbn in Hs. rewrite app_nil_r in Hs.
  assert (F : forall Y, loop Y = P ++ [mkTask (CbRespond a) Io Ran] ->
              transmissions Y = transmissions X ->
              scheduled a from Y = backoff
              /\ transmissions Y = base ++ replicate q (Respond pkt)
              /\ fire_last Y = Y).
  { intros Y EY TY. split; [|split].
    - rewrite (scheduled_snoc _ _ _ _ _ EY Hle). cbn. now rewrite app_nil_r.
    - now rewrite TY.
    - rewrite (fire_last_snoc _ _ _ EY). unfold complete.
      rewrite EY. now rewrite list_lookup_middle by reflexivity. }
  destruct (published svc); cbn [negb]; apply F; try reflexivity.
  unfold transmissions.
  cbn [log with_loop with_announces say with_log set_service with_heap].
  rewrite List.filter_app. cbn [List.filter is_tx]. apply app_nil_r.
Qed.

(** [announce] on an activated service that is not destroyed registers the
    records and makes the first broadcast at once. *)
Lemma cycle_begin s st svc :
  heap st !! s = Some svc -> _activated svc = true -> _destroyed svc = false ->
  cycle_at (length (announces st)) s (length (loop st)) 0 1 (_records svc)
    (transmissions st)
    (mkTask (CbRespond (length (announces st))) Io Pending) (announce s st).
Proof.
  intros Hh Hact Hdes. unfold announce. rewrite Hh. cbv zeta.
  unfold broadcast. cbn [announces say with_log with_announces heap].
  rewrite list_lookup_middle by reflexivity. cbn [a_service].
  rewrite Hh, Hact, Hdes. cbn [negb orb packet].
  exists (loop st), svc.
  split; [reflexivity|]. split; [lia|]. split.
  { unfold scheduled. cbn. rewrite drop_app_length. reflexivity. }
  split; [cbn; now rewrite list_lookup_middle|].
  split; [exact Hh|]. split; [exact Hact|]. split; [exact Hdes|].
  unfold transmissions.
  cbn [log defer with_loop say with_log with_announces].
  rewrite !List.filter_app. cbn [List.filter is_tx replicate]. now rewrite app_nil_r.
Qed.

Lemma iter_fixed {A : Type} (h : A -> A) (x : A) (n : nat) :
  h x = x -> Nat.iter n h x = x.
Proof. intros H. induction n as [|n IH]; simpl; [reflexivity|]. now rewrite IH. Qed.

Lemma iter_add {A : Type} (h : A -> A) (x : A) (n m : nat) :
  Nat.iter (n + m) h x = Nat.iter n h (Nat.iter m h x).
Proof. induction n as [|n IH]; simpl; [reflexivity|]. now rewrite IH. Qed.

Lemma cycle_even a s from pkt base X k :
  (k <= 7)%nat ->
  cycle_at a s from 0 1 pkt base (mkTask (CbRespond a) Io Pending) X ->
  cycle_at a s from k (S k) pkt base (mkTask (CbRespond a) Io Pending)
    (Nat.iter (2 * k) fire_last X).
Proof.
  intros Hk H0. induction k as [|k IH]; [exact H0|].
  replace (2 * S k)%nat with (S (S (2 * k))) by lia. rewrite !Nat.iter_succ.
  eapply cycle_timeout. apply cycle_complete; [lia|]. apply IH. lia.
Qed.

(** *** Conflict resolution and the transport's errors *)

(** The restart after a conflict passes the registry where [start] expects
    its options, so the branch with [probe] is never taken. *)
Lemma listeners_announce s st : response_listeners (announce s st) = response_listeners st.
Proof.
  unfold announce. case_match; [|reflexivity]. unfold broadcast. same_field.
Qed.

Lemma probes_probed_conflict p st :
  probes (probed p true st) = probes st
  /\ response_listeners (probed p true st) = response_listeners st.
Proof.
  unfold probed. destruct (probes st !! p) as [ctx|]; [|auto].
  destruct (heap st !! p_service ctx) as [svc|] eqn:Hs; [|auto].
  cbv zeta. unfold service_start, start.
  match goal with |- context [heap ?x !! ?i] => destruct (heap x !! i) as [svc1|] end;
    [|auto].
  destruct (_activated svc1); [auto|].
  cbv zeta. cbn [nth opts_probe].
  rewrite probes_announce, listeners_announce. auto.
Qed.

(** C4.  Whatever service is published, with or without probing, an 'error'
    event of the transport is not forwarded to it: the listener of
    registry.js:47 refers to [service], which is declared in the block of
    line 52 and out of its scope, so the listener throws a ReferenceError
    and "error" is emitted on no service. *)
Theorem transport_error_not_forwarded (nm ty : string) (pr : option bool) (err : string) :
  let st := run init [Publish nm ty pr; TransportError err] in
  last (log st) = Some (Throw "ReferenceError: service is not defined")
  /\ emitted "error" st = [].
Proof.
  destruct pr as [[|]|]; cbn; split; reflexivity.
Qed.

(** ** Further properties of the registry *)

(** *** Removal from the active collection *)

(** X1. [indexOf] and [splice(index, 1)] (registry.js:66-67 and 91-92): a
    service that is not in the collection leaves it as it is; one that is
    there loses its first entry, and the other entries keep their order. *)
Theorem remove_first_splice (s : nat) (l : list nat) :
  (s ∉ l -> remove_first s l = l)
  /\ (s ∈ l -> exists l1 l2,
        l = l1 ++ s :: l2 /\ (s ∉ l1) /\ remove_first s l = l1 ++ l2).
Proof.
  induction l as [|x l [IH1 IH2]]; simpl.
  - split; [reflexivity|]. intros H. now apply elem_of_nil in H.
  - destruct (Nat.eqb_spec x s) as [->|Hne]; split.
    + intros H. exfalso. apply H. apply elem_of_cons. now left.
    + intros _. exists (@nil nat). exists l.
      split; [reflexivity|]. split; [apply not_elem_of_nil|reflexivity].
    + intros H. f_equal. apply IH1. intros Hin. apply H. apply elem_of_cons. now right.
    + intros H. apply elem_of_cons in H as [->|H]; [contradiction|].
      destruct (IH2 H) as (l1 & l2 & -> & Hn & E).
      exists (x :: l1), l2. split; [reflexivity|]. split.
      * rewrite not_elem_of_cons. split; [congruence|assumption].
      * simpl. now rewrite E.
Qed.

(** *** Teardown with nothing to withdraw *)

(** X2. When none of the services handed to [teardown] is activated, the
    transport is not touched: nothing is unregistered or broadcast, no
    callback is deferred, no service changes, and the caller's callback, if
    there is one, is called at once without arguments (registry.js:194-207). *)
Theorem teardown_nothing_active (ss : list nat) (cb : option nat) (st : State) :
  Forall (fun s => is_activated st s = false) ss ->
  teardown ss cb st
  = match cb with Some c => say (UserCallback c None) st | None => st end.
Proof.
  intros H. unfold teardown.
  assert (E : List.filter (is_activated st) ss = []).
  { induction H as [|x l Hx _ IH]; simpl; [reflexivity|]. now rewrite Hx. }
  rewrite E. reflexivity.
Qed.

(** *** destroy *)

(** The store after [destroy]: the services of the collection are marked
    in turn, and nothing else changes. *)
Lemma destroy_unfold (st : State) :
  exists h,
    destroy st = with_heap h st
    /\ forall s, h !! s =
         if existsb (Nat.eqb s) (services st)
         then set_destroyed true <$> heap st !! s
         else heap st !! s.
Proof.
  unfold destroy.
  set (mark := fun st s => match heap st !! s with
                           | Some svc => set_service s (set_destroyed true svc) st
                           | None => st end).
  assert (F : forall l st0, exists h,
             fold_left mark l st0 = with_heap h st0
             /\ forall s, h !! s = if existsb (Nat.eqb s) l
                                   then set_destroyed true <$> heap st0 !! s
                                   else heap st0 !! s).
  { induction l as [|x l IH]; intros st0.
    - exists (heap st0). split; [now destruct st0|reflexivity].
    - simpl fold_left. unfold mark at 2.
      destruct (heap st0 !! x) as [svc|] eqn:Hx.
      + destruct (IH (set_service x (set_destroyed true svc) st0)) as (h & E & Hh).
        exists h. split; [exact E|].
        intros s. rewrite Hh. simpl existsb. rewrite lookup_set_service.
        destruct (Nat.eqb_spec s x) as [->|Hne].
        * destruct (decide _) as [_|Hn].
          -- rewrite Hx. simpl. now destruct (existsb _ l).
          -- exfalso. apply Hn. apply lookup_lt_Some in Hx. split; [reflexivity|lia].
        * destruct (decide _) as [[E' _]|_]; [congruence|]. reflexivity.
      + destruct (IH st0) as (h & E & Hh). exists h. split; [exact E|].
        intros s. rewrite Hh. simpl existsb.
        destruct (Nat.eqb_spec s x) as [->|Hne]; [|reflexivity].
        simpl. rewrite Hx. now destruct (existsb _ l). }
  exact (F (services st) st).
Qed.

(** X3. [destroy] sets [_destroyed] on every service of the active
    collection and on no other; it sends nothing, defers nothing and leaves
    the collection as it is (registry.js:31-35). *)
Theorem destroy_marks_tracked (st : State) :
  log (destroy st) = log st
  /\ loop (destroy st) = loop st
  /\ services (destroy st) = services st
  /\ forall s, heap (destroy st) !! s =
       if existsb (Nat.eqb s) (services st)
       then set_destroyed true <$> heap st !! s
       else heap st !! s.
Proof.
  destruct (destroy_unfold st) as (h & E & Hh).
  rewrite E. split; [reflexivity|]. split; [reflexivity|]. split; [reflexivity|].
  exact Hh.
Qed.

(** *** Responses *)

Lemma existsb_foreign st pkt svc (rs : list RR) :
  foreign st pkt -> svc ∈ heap st ->
  (forall rr, rr ∈ rs -> rr ∈ answers pkt ++ additionals pkt) ->
  existsb (matchRR svc) rs = false.
Proof.
  intros Hf Hs Hsub. induction rs as [|r rs IH]; simpl; [reflexivity|].
  unfold matchRR at 1. rewrite (Hf r svc); [|apply Hsub, elem_of_cons; now left|assumption].
  apply IH. intros rr Hr. apply Hsub, elem_of_cons. now right.
Qed.

Lemma onresponse_foreign p pkt st : foreign st pkt -> onresponse p pkt st = st.
Proof.
  intros Hf. unfold onresponse.
  destruct (probes st !! p) as [ctx|]; [|reflexivity].
  destruct (sent ctx); [|reflexivity]. simpl negb. cbv iota.
  destruct (heap st !! p_service ctx) as [svc|] eqn:Hs; [|reflexivity].
  assert (Hin : svc ∈ heap st) by (eapply list_elem_of_lookup_2; exact Hs).
  rewrite (existsb_foreign st pkt svc (answers pkt) Hf Hin),
          (existsb_foreign st pkt svc (additionals pkt) Hf Hin); [reflexivity| |].
  - intros rr Hr. apply elem_of_app. now right.
  - intros rr Hr. apply elem_of_app. now left.
Qed.

(** X4. A response none of whose answer or additional records carries the
    fqdn of a service (compared as DNS names) is ignored by every probe:
    the state is unchanged, whatever probes are listening
    (registry.js:128-141). *)
Theorem foreign_response_ignored (pkt : Packet) (st : State) :
  foreign st pkt -> emit_response pkt st = st.
Proof.
  intros Hf. unfold emit_response.
  induction (response_listeners st) as [|p l IH]; simpl; [reflexivity|].
  now rewrite onresponse_foreign.
Qed.








(** *** A probe nobody answers *)

Lemma probe_send p s svc k w base X :
  w <> Io -> _activated svc = true -> _destroyed svc = false ->
  probe_at p s svc k k (mkTask (CbSend p) w Pending) base X ->
  probe_at p s svc k (S k) (mkTask (CbQuery p) Io Pending) base (fire_last X).
Proof.
  intros Hw Hact Hdes (P & ctx & E & Hp & Hs & Hr & Hh & Hl).
  rewrite (fire_last_snoc _ _ _ E).
  assert (Et : timeout (length P) X = send p (mark_ran (length P) X)).
  { unfold timeout. rewrite E. rewrite list_lookup_middle by reflexivity.
    destruct w; [reflexivity|reflexivity|contradiction]. }
  assert (Ef : match mkTask (CbSend p) w Pending with
               | mkTask _ Io _ => complete (length P) None X
               | _ => timeout (length P) X end = timeout (length P) X)
    by (destruct w; [reflexivity|reflexivity|contradiction]).
  rewrite Ef, Et, (mark_ran_snoc _ _ _ _ _ E).
  unfold send. cbn [probes with_loop heap]. rewrite Hp, Hs, Hh, Hact, Hdes.
  cbn [negb orb].
  exists (P ++ [mkTask (CbSend p) w Ran]), ctx.
  split; [reflexivity|]. split; [exact Hp|]. split; [exact Hs|]. split; [exact Hr|].
  split; [exact Hh|]. cbn [log defer with_loop say with_log].
  rewrite Hl, <- app_assoc. f_equal. symmetry. apply replicate_cons_app.
Qed.

Lemma probe_sent p s svc k base X :
  probe_at p s svc k (S k) (mkTask (CbQuery p) Io Pending) base X ->
  probe_at p s svc (S k) (S k)
    (mkTask (if (S k <? 3)%nat then CbSend p else CbDone p) (Ms 250) Pending)
    base (fire_last X).
Proof.
  intros (P & ctx & E & Hp & Hs & Hr & Hh & Hl).
  rewrite (fire_last_snoc _ _ _ E). unfold complete.
  rewrite E. rewrite list_lookup_middle by reflexivity. cbv zeta.
  rewrite (mark_ran_snoc _ _ _ _ _ E).
  unfold send_cb. cbn [probes with_loop]. rewrite Hp, Hr. cbv zeta.
  eexists (P ++ [mkTask (CbQuery p) Io Ran]), _.
  split; [reflexivity|]. split.
  { cbn. apply list_lookup_insert_eq. now apply lookup_lt_Some in Hp. }
  split; [exact Hs|]. split; [reflexivity|]. split; [exact Hh|exact Hl].
Qed.

Lemma log_announce_active s svc X :
  heap X !! s = Some svc -> _activated svc = true -> _destroyed svc = false ->
  log (announce s X) = log X ++ [Register (_records svc); Respond (_records svc)].
Proof.
  intros Hh Hact Hdes. unfold announce. rewrite Hh. cbv zeta.
  unfold broadcast. cbn [announces say with_log with_announces heap].
  rewrite list_lookup_middle by reflexivity. cbn [a_service packet].
  rewrite Hh, Hact, Hdes. cbn. now rewrite <- app_assoc.
Qed.

Lemma probe_done p s svc k q base X :
  _activated svc = true -> _destroyed svc = false ->
  probe_at p s svc k q (mkTask (CbDone p) (Ms 250) Pending) base X ->
  log (fire_last X)
  = base ++ replicate q (Query (fqdn svc))
    ++ [ProbeResult p s false; Register (_records svc); Respond (_records svc)].
Proof.
  intros Hact Hdes (P & ctx & E & Hp & Hs & Hr & Hh & Hl).
  rewrite (fire_last_snoc _ _ _ E). unfold timeout.
  rewrite E. rewrite list_lookup_middle by reflexivity. cbv zeta.
  rewrite (mark_ran_snoc _ _ _ _ _ E).
  unfold done. cbn [probes with_loop]. rewrite Hp. cbv zeta.
  match goal with |- context [clearTimeout ?t ?Y] => set (Z0 := clearTimeout t Y) end.
  assert (HpZ : probes Z0 = probes X) by (unfold Z0; now rewrite probes_clearTimeout).
  assert (HhZ : heap Z0 = heap X) by (unfold Z0; now rewrite heap_clearTimeout).
  assert (HlZ : log Z0 = log X) by (unfold Z0; now rewrite log_clearTimeout).
  unfold probed. cbn [probes say with_log]. rewrite HpZ, Hp, Hs.
  rewrite (log_announce_active s svc); [|cbn; now rewrite HhZ|assumption..].
  cbn [log say with_log]. rewrite HlZ, Hl, <- !app_assoc. reflexivity.
Qed.

(** X6. A probe left without any response, on a service that stays
    activated and is not destroyed: after the jitter it sends three queries
    for the service's fqdn, one per completed query and 250 ms wait, then
    reports "not exists" once, and the service's records are registered and
    broadcast (registry.js:107-126, 143-147 and 79). *)
Theorem unanswered_probe_announces (st : State) (s : nat) (svc : Service) (opts : value) :
  heap st !! s = Some svc -> _activated svc = true -> _destroyed svc = false ->
  log (Nat.iter 7 fire_last (probe s opts st))
  = log st ++ [Query (fqdn svc); Query (fqdn svc); Query (fqdn svc);
               ProbeResult (length (probes st)) s false;
               Register (_records svc); Respond (_records svc)].
Proof.
  intros Hh Hact Hdes.
  set (p := length (probes st)).
  assert (H0 : probe_at p s svc 0 0 (mkTask (CbSend p) Jitter Pending) (log st)
                 (probe s opts st)).
  { exists (loop st), (mkProbe s opts false 0 None).
    split; [reflexivity|]. split; [cbn; now apply list_lookup_middle|].
    split; [reflexivity|]. split; [reflexivity|]. split; [exact Hh|].
    cbn. now rewrite app_nil_r. }
  change (Nat.iter 7 fire_last (probe s opts st))
    with (fire_last (fire_last (fire_last (fire_last (fire_last (fire_last
            (fire_last (probe s opts st)))))))).
  apply (probe_send p s svc 0 Jitter) in H0; [|discriminate|assumption..].
  apply probe_sent in H0. cbn [Nat.ltb Nat.leb] in H0.
  apply (probe_send p s svc 1 (Ms 250)) in H0; [|discriminate|assumption..].
  apply probe_sent in H0. cbn [Nat.ltb Nat.leb] in H0.
  apply (probe_send p s svc 2 (Ms 250)) in H0; [|discriminate|assumption..].
  apply probe_sent in H0. cbn [Nat.ltb Nat.leb] in H0.
  rewrite (probe_done p s svc 3 3 (log st) _ Hact Hdes H0). reflexivity.
Qed.

(** *** Destroyed services *)

Lemma destroyed_step_frame e st s :
  is_destroyed st s = true ->
  match e with Destroy => False | _ => True end ->
  frame _destroyed (fun _ => false) s st (step st e).
Proof.
  intros Hd He.
  assert (Hlt : (s < length (heap st))%nat).
  { unfold is_destroyed in Hd. destruct (heap st !! s) eqn:E; [|discriminate].
    now apply lookup_lt_Some in E. }
  destruct e; simpl; try contradiction.
  - apply frame_publish; [frame_side..|assumption|apply frame_refl].
  - apply frame_service_start; [frame_side..|apply frame_refl].
  - apply frame_stop; [frame_side..|apply frame_refl].
  - apply frame_unpublishAll; [frame_side..|apply frame_refl].
  - apply frame_timeout; [frame_side..|apply frame_refl].
  - unfold complete.
    destruct (loop st !! t) as [[c w [| |]]|]; try apply frame_refl;
      destruct w; try apply frame_refl.
    cbv zeta.
    assert (F : frame _destroyed (fun _ => false) s st (mark_ran t st))
      by (apply frame_mark_ran, frame_refl).
    destruct c; try exact F.
    + apply frame_send_cb; assumption.
    + apply frame_broadcast_cb; [frame_side..| |assumption].
      intros; split; reflexivity.
    + apply frame_teardown_cb; [frame_side..| |assumption].
      intros; reflexivity.
  - apply frame_emit_response; [frame_side..|apply frame_refl].
  - apply frame_emit_error; [frame_side..|apply frame_refl].
Qed.

Lemma destroyed_step e st s :
  is_destroyed st s = true -> is_destroyed (step st e) s = true.
Proof.
  intros Hd. destruct (match e with Destroy => true | _ => false end) eqn:He.
  - destruct e; try discriminate. simpl.
    destruct (destroy_unfold st) as (h0 & E0 & Hh).
    change h0 with (heap (with_heap h0 st)) in Hh. rewrite <- E0 in Hh.
    unfold is_destroyed in *. rewrite Hh.
    destruct (existsb _ _), (heap st !! s); simpl; congruence.
  - assert (F : frame _destroyed (fun _ => false) s st (step st e)).
    { apply destroyed_step_frame; [assumption|]. destruct e; try exact I. discriminate. }
    destruct F as [_ Hh _ _]. unfold is_destroyed in *.
    destruct (heap st !! s), (heap (step st e) !! s); simpl in Hh; congruence.
Qed.

(** X7. [_destroyed] is final: once a service is destroyed, no call on the
    registry or the service, no timer, no transport callback and no
    response makes it false again. *)
Theorem destroyed_is_final (evs : list event) (st : State) (s : nat) :
  is_destroyed st s = true -> is_destroyed (run st evs) s = true.
Proof.
  revert st. unfold run. induction evs as [|e evs IH]; intros st H; simpl; [assumption|].
  apply IH. now apply destroyed_step.
Qed.

Lemma all_destroyed_lookup st s svc :
  all_destroyed st -> heap st !! s = Some svc -> _destroyed svc = true.
Proof.
  unfold all_destroyed. rewrite Forall_lookup. intros H Hs. exact (H s svc Hs).
Qed.

Lemma all_destroyed_same st st' : heap st' = heap st -> all_destroyed st -> all_destroyed st'.
Proof. unfold all_destroyed. now intros ->. Qed.

Lemma all_destroyed_set s v st :
  _destroyed v = true -> all_destroyed st -> all_destroyed (set_service s v st).
Proof.
  intros Hv H. unfold all_destroyed in *. cbn.
  destruct (decide (s < length (heap st))%nat) as [Hlt|Hge].
  - now apply Forall_insert.
  - rewrite list_insert_ge by lia. assumption.
Qed.

Lemma send_destroyed p st : all_destroyed st -> send p st = st.
Proof.
  intros H. unfold send. destruct (probes st !! p) as [ctx|]; [|reflexivity].
  destruct (heap st !! p_service ctx) as [svc|] eqn:Hs; [|reflexivity].
  rewrite (all_destroyed_lookup _ _ _ H Hs). now rewrite orb_true_r.
Qed.

Lemma broadcast_destroyed a st : all_destroyed st -> broadcast a st = st.
Proof.
  intros H. unfold broadcast. destruct (announces st !! a) as [ctx|]; [|reflexivity].
  destruct (heap st !! a_service ctx) as [svc|] eqn:Hs; [|reflexivity].
  rewrite (all_destroyed_lookup _ _ _ H Hs). now rewrite orb_true_r.
Qed.

Lemma announce_destroyed s st :
  all_destroyed st ->
  all_destroyed (announce s st) /\ transmissions (announce s st) = transmissions st.
Proof.
  intros H. unfold announce. destruct (heap st !! s) as [svc|]; [|auto].
  cbv zeta. rewrite broadcast_destroyed by exact H. split; [exact H|].
  now rewrite transmissions_say, app_nil_r.
Qed.

Lemma start_destroyed s args st :
  all_destroyed st ->
  all_destroyed (start s args st) /\ transmissions (start s args st) = transmissions st.
Proof.
  intros H. unfold start. destruct (heap st !! s) as [svc|] eqn:Hs; [|auto].
  destruct (_activated svc); [auto|]. cbv zeta.
  pose proof (all_destroyed_lookup _ _ _ H Hs) as Hd.
  match goal with |- context [with_error_listeners ?l ?Y] =>
    set (Y0 := with_error_listeners l Y) end.
  assert (HY : all_destroyed Y0).
  { unfold Y0. apply (all_destroyed_same (set_service s
        (if truthy_name (_originalName (set_activated true svc))
         then set_activated true svc
         else set_original (Some (name (set_activated true svc))) (Some 1%nat)
                (set_activated true svc)) st)); [reflexivity|].
    apply all_destroyed_set; [|exact H]. now destruct (truthy_name _). }
  assert (HT : transmissions Y0 = transmissions st) by reflexivity.
  destruct (opts_probe _) as [[|]|].
  - split; [exact HY|exact HT].
  - destruct (announce_destroyed s Y0 HY) as [A B]. split; [exact A|]. now rewrite B.
  - split; [exact HY|]. now rewrite transmissions_say, app_nil_r.
Qed.

Lemma probed_destroyed p found st :
  all_destroyed st ->
  all_destroyed (probed p found st) /\ transmissions (probed p found st) = transmissions st.
Proof.
  intros H. unfold probed. destruct (probes st !! p) as [ctx|]; [|auto].
  destruct found; [|now apply announce_destroyed].
  destruct (heap st !! p_service ctx) as [svc|] eqn:Hs; [|auto].
  cbv zeta. unfold service_start.
  pose proof (all_destroyed_lookup _ _ _ H Hs) as Hd.
  match goal with |- context [start ?s ?args ?Y] => set (Y0 := Y) end.
  assert (HY : all_destroyed Y0).
  { unfold Y0. eapply all_destroyed_same; [|apply (all_destroyed_set (p_service ctx)); [|exact H]].
    - reflexivity.
    - exact Hd. }
  assert (HT : transmissions Y0 = transmissions st).
  { unfold Y0. now rewrite transmissions_say, app_nil_r. }
  destruct (start_destroyed (p_service ctx)
              [VRegistry; VRegistry; p_opts ctx] Y0 HY) as [A B].
  split; [exact A|]. now rewrite B.
Qed.

Lemma done_destroyed p found st :
  all_destroyed st ->
  all_destroyed (done p found st) /\ transmissions (done p found st) = transmissions st.
Proof.
  intros H. unfold done. destruct (probes st !! p) as [ctx|]; [|auto].
  cbv zeta.
  match goal with |- context [probed p found ?Y] => set (Y0 := Y) end.
  assert (HY : all_destroyed Y0).
  { unfold Y0. eapply all_destroyed_same; [|exact H]. cbn. now rewrite heap_clearTimeout. }
  assert (HT : transmissions Y0 = transmissions st).
  { unfold Y0. rewrite transmissions_say, app_nil_r. apply transmissions_same.
    now rewrite log_clearTimeout. }
  destruct (probed_destroyed p found Y0 HY) as [A B]. split; [exact A|]. now rewrite B.
Qed.

Lemma emit_response_destroyed pkt st :
  all_destroyed st ->
  all_destroyed (emit_response pkt st)
  /\ transmissions (emit_response pkt st) = transmissions st.
Proof.
  intros H. unfold emit_response.
  apply (fold_left_keeps
           (fun x => all_destroyed x /\ transmissions x = transmissions st)); [|auto].
  intros a p [A B]. unfold onresponse. repeat case_match; auto.
  destruct (done_destroyed p true a A) as [A' B']. split; [exact A'|]. now rewrite B'.
Qed.

Lemma mark_ran_destroyed t st :
  all_destroyed st ->
  all_destroyed (mark_ran t st) /\ transmissions (mark_ran t st) = transmissions st.
Proof.
  intros H. unfold mark_ran. repeat case_match; auto.
Qed.

Lemma passive_step_destroyed e st :
  passive e = true -> all_destroyed st ->
  all_destroyed (step st e) /\ transmissions (step st e) = transmissions st.
Proof.
  intros He H. destruct e; try discriminate; simpl.
  - (* destroy *)
    destruct (destroy_unfold st) as (h0 & E0 & Hh).
    change h0 with (heap (with_heap h0 st)) in Hh. rewrite <- E0 in Hh.
    assert (Hl : log (destroy st) = log st) by (now rewrite E0). split.
    + unfold all_destroyed. rewrite Forall_lookup. intros i svc Hi.
      rewrite Hh in Hi. destruct (existsb _ _).
      * destruct (heap st !! i); [|discriminate]. injection Hi as <-. reflexivity.
      * exact (all_destroyed_lookup _ _ _ H Hi).
    + now apply transmissions_same.
  - (* a timer fires *)
    unfold timeout.
    destruct (loop st !! t) as [[c w [| |]]|]; auto; destruct w; auto; cbv zeta;
      destruct (mark_ran_destroyed t st H) as [A B];
      (destruct c; auto;
       [ now rewrite send_destroyed
       | destruct (done_destroyed p false _ A) as [A' B']; split; [exact A'|now rewrite B']
       | now rewrite broadcast_destroyed ]).
  - (* the transport calls back *)
    unfold complete.
    destruct (loop st !! t) as [[c w [| |]]|]; auto; destruct w; auto; cbv zeta.
    destruct (mark_ran_destroyed t st H) as [A B].
    destruct c; auto.
    + (* the callback of a query *)
      unfold send_cb. destruct (probes (mark_ran t st) !! p); auto.
    + (* the callback of a broadcast *)
      unfold broadcast_cb. destruct (announces (mark_ran t st) !! a) as [ctx|]; auto.
      destruct (heap (mark_ran t st) !! a_service ctx) as [svc|] eqn:Hs; auto.
      pose proof (all_destroyed_lookup _ _ _ A Hs) as Hd.
      cbv zeta. rewrite Hd, andb_false_r.
      destruct (published svc); cbn [negb]; split; try assumption.
      * eapply all_destroyed_same; [|apply (all_destroyed_set (a_service ctx)); [|exact A]];
          [reflexivity|exact Hd].
      * rewrite <- B. unfold transmissions. cbn. rewrite List.filter_app. cbn.
        now rewrite app_nil_r.
    + (* the callback of a goodbye *)
      unfold teardown_cb.
      match goal with |- context [fold_left ?h ss ?x] =>
        assert (F : all_destroyed (fold_left h ss x)
                    /\ transmissions (fold_left h ss x) = transmissions st) end.
      { apply (fold_left_keeps
                 (fun x => all_destroyed x /\ transmissions x = transmissions st)); [|auto].
        intros x s0 [A' B']. destruct (heap x !! s0) as [svc|] eqn:Hs; [|auto].
        split; [|assumption].
        apply all_destroyed_set; [|assumption]. exact (all_destroyed_lookup _ _ _ A' Hs). }
      destruct F as [A' B']. destruct cb; [|auto].
      split; [exact A'|]. now rewrite transmissions_say, app_nil_r.
  - now apply emit_response_destroyed.
  - assert (E : exists m, emit_error err st = say (Throw m) st).
    { unfold emit_error. destruct (error_listeners st) as [|[s0 o] l];
        eexists; reflexivity. }
    destruct E as [m ->]. split; [exact H|]. now rewrite transmissions_say, app_nil_r.
Qed.

(** X8. Once every service of the registry is destroyed, timers that fire,
    transport callbacks that run and responses that arrive, in any number
    and order, put nothing on the network: no query is sent and no
    broadcast is made (registry.js:117 and 166). *)
Theorem destroyed_registry_is_silent (evs : list event) (st : State) :
  all_destroyed st -> forallb passive evs = true ->
  transmissions (run st evs) = transmissions st.
Proof.
  revert st. unfold run. induction evs as [|e evs IH]; intros st H He; simpl in *;
    [reflexivity|].
  apply andb_true_iff in He as [H1 H2].
  destruct (passive_step_destroyed e st H1 H) as [A B].
  rewrite (IH _ A H2). exact B.
Qed.

(** *** The active collection *)

Lemma remove_first_NoDup s l :
  NoDup l ->
  NoDup (remove_first s l) /\ (forall x, x ∈ remove_first s l <-> x ∈ l /\ x <> s).
Proof.
  induction l as [|y l IH]; intros Hnd; simpl.
  - split; [constructor|]. intros x. split; [intros H; now apply elem_of_nil in H|].
    intros [H _]. now apply elem_of_nil in H.
  - apply NoDup_cons in Hnd as [Hy Hnd]. destruct (IH Hnd) as [IH1 IH2].
    destruct (Nat.eqb_spec y s) as [->|Hne].
    + split; [assumption|]. intros x. rewrite elem_of_cons. split.
      * intros H. split; [now right|]. intros ->. contradiction.
      * intros [[->|H] Hx]; [contradiction|assumption].
    + split.
      * apply NoDup_cons. split; [|assumption]. rewrite IH2. tauto.
      * intros x. rewrite !elem_of_cons, IH2. split.
        -- intros [->|[H Hx]]; [split; [now left|assumption]|split; [now right|assumption]].
        -- intros [[->|H] Hx]; [now left|right; split; assumption].
Qed.

Lemma grows_refl st : grows st st.
Proof. split; auto. Qed.

Lemma grows_trans st1 st2 st3 : grows st1 st2 -> grows st2 st3 -> grows st1 st3.
Proof. intros [A1 A2] [B1 B2]. split; [congruence|auto]. Qed.

Lemma grows_same st st' :
  services st' = services st -> heap st' = heap st -> grows st st'.
Proof. intros Hs Hh. split; [assumption|]. unfold is_activated. now rewrite Hh. Qed.

Lemma grows_collection st st' : grows st st' -> collection_ok st -> collection_ok st'.
Proof.
  intros [Hs Ha] [Hnd Hm]. split; rewrite Hs; [assumption|]. intros s Hin. auto.
Qed.

Lemma heap_mark_ran t st : heap (mark_ran t st) = heap st.
Proof. unfold mark_ran. same_field. Qed.

Lemma services_mark_ran t st : services (mark_ran t st) = services st.
Proof. unfold mark_ran. same_field. Qed.

Lemma services_clearTimeout t st : services (clearTimeout t st) = services st.
Proof. unfold clearTimeout. same_field. Qed.

Lemma grows_broadcast a st : grows st (broadcast a st).
Proof. apply grows_same; unfold broadcast; same_field. Qed.

Lemma grows_announce s st : grows st (announce s st).
Proof.
  unfold announce. case_match; [|apply grows_refl]. cbv zeta.
  eapply grows_trans; [|apply grows_broadcast]. now apply grows_same.
Qed.

Lemma grows_send p st : grows st (send p st).
Proof. apply grows_same; unfold send; same_field. Qed.

Lemma grows_send_cb p st : grows st (send_cb p st).
Proof. apply grows_same; unfold send_cb; same_field. Qed.

Lemma grows_broadcast_cb a st : grows st (broadcast_cb a st).
Proof.
  unfold broadcast_cb. destruct (announces st !! a) as [ctx|]; [|apply grows_refl].
  destruct (heap st !! a_service ctx) as [svc|] eqn:Hs; [|apply grows_refl].
  cbv zeta.
  assert (G : grows st
            (if negb (published svc)
             then say (Emit (a_service ctx) "up")
                    (set_service (a_service ctx)
                       (set_published true (set_activated true svc)) st)
             else st)).
  { destruct (published svc); cbn [negb]; [apply grows_refl|].
    split; [reflexivity|]. intros s Ha. unfold is_activated in *. cbn.
    destruct (decide (a_service ctx = s)) as [<-|Hne].
    - rewrite list_lookup_insert_eq; [reflexivity|]. now apply lookup_lt_Some in Hs.
    - now rewrite list_lookup_insert_ne. }
  eapply grows_trans; [exact G|]. destruct (_ && _); now apply grows_same.
Qed.

Lemma grows_teardown_cb ss cb r st : grows st (teardown_cb ss cb r st).
Proof.
  unfold teardown_cb. destruct (unpublish_fold ss st) as (h & E & Hh).
  cbv zeta in E. rewrite E.
  assert (G : grows st (with_heap h st)).
  { split; [reflexivity|]. intros s. unfold is_activated. cbn. rewrite Hh.
    destruct (existsb _ _); [|auto]. now destruct (heap st !! s). }
  destruct cb; [|exact G]. eapply grows_trans; [exact G|]. now apply grows_same.
Qed.

Lemma grows_destroy st : grows st (destroy st).
Proof.
  destruct (destroy_unfold st) as (h0 & E0 & Hh).
  change h0 with (heap (with_heap h0 st)) in Hh. rewrite <- E0 in Hh.
  assert (Hs : services (destroy st) = services st) by (now rewrite E0).
  split; [assumption|]. intros s. unfold is_activated. rewrite Hh.
  destruct (existsb _ _); [|auto]. now destruct (heap st !! s).
Qed.

Lemma grows_emit_error err st : grows st (emit_error err st).
Proof.
  assert (E : exists m, emit_error err st = say (Throw m) st).
  { unfold emit_error. destruct (error_listeners st) as [|[s0 o] l]; eexists; reflexivity. }
  destruct E as [m ->]. now apply grows_same.
Qed.

(** [start] adds the service to the collection only when it was not
    activated, hence not yet there. *)
Lemma collection_start s args st :
  collection_ok st -> collection_ok (start s args st).
Proof.
  intros [Hnd Hm]. unfold start.
  destruct (heap st !! s) as [svc|] eqn:Hs; [|now split].
  destruct (_activated svc) eqn:Hact; [now split|]. cbv zeta.
  match goal with |- context [with_error_listeners ?l ?Y] =>
    set (Y0 := with_error_listeners l Y) end.
  assert (Hnot : s ∉ services st).
  { intros Hin. specialize (Hm s Hin). unfold is_activated in Hm.
    rewrite Hs in Hm. congruence. }
  assert (HY : collection_ok Y0).
  { split.
    - cbn. apply NoDup_app. split; [assumption|]. split; [|apply NoDup_singleton].
      intros x Hx Hx'. apply list_elem_of_singleton in Hx'. subst x. contradiction.
    - intros x Hx. cbn in Hx. unfold is_activated. cbn.
      destruct (decide (s = x)) as [<-|Hne].
      + rewrite list_lookup_insert_eq by (now apply lookup_lt_Some in Hs).
        now destruct (truthy_name _).
      + rewrite list_lookup_insert_ne by assumption.
        apply elem_of_app in Hx as [Hx|Hx]; [exact (Hm x Hx)|].
        apply list_elem_of_singleton in Hx. congruence. }
  destruct (opts_probe _) as [[|]|].
  - eapply grows_collection; [|exact HY]. now apply grows_same.
  - eapply grows_collection; [apply grows_announce|exact HY].
  - eapply grows_collection; [|exact HY]. now apply grows_same.
Qed.

Lemma collection_probed p found st :
  collection_ok st -> collection_ok (probed p found st).
Proof.
  intros H. unfold probed. destruct (probes st !! p) as [ctx|]; [|assumption].
  destruct found; [|eapply grows_collection; [apply grows_announce|assumption]].
  destruct (heap st !! p_service ctx) as [svc|] eqn:Hs; [|assumption].
  cbv zeta. unfold service_start. apply collection_start.
  destruct H as [Hnd Hm]. destruct (remove_first_NoDup (p_service ctx) _ Hnd) as [R1 R2].
  split; [exact R1|].
  intros x Hx. cbn in Hx. apply R2 in Hx as [Hx Hne].
  unfold is_activated. cbn. rewrite list_lookup_insert_ne by congruence. exact (Hm x Hx).
Qed.

Lemma collection_done p found st :
  collection_ok st -> collection_ok (done p found st).
Proof.
  intros H. unfold done. destruct (probes st !! p) as [ctx|]; [|assumption].
  cbv zeta. apply collection_probed.
  eapply grows_collection; [|exact H]. apply grows_same; cbn.
  - now rewrite services_clearTimeout.
  - now rewrite heap_clearTimeout.
Qed.

Lemma collection_emit_response pkt st :
  collection_ok st -> collection_ok (emit_response pkt st).
Proof.
  unfold emit_response. apply fold_left_keeps. intros a p H.
  unfold onresponse. repeat case_match; try assumption. now apply collection_done.
Qed.

Lemma collection_stop s cb st : collection_ok st -> collection_ok (stop s cb st).
Proof.
  intros [Hnd Hm]. unfold stop. destruct (is_activated st s); [|now split]. cbn [negb].
  destruct (teardown_unfold [s] cb st) as (h & Hl & Hh & E).
  assert (Hsv : services (teardown [s] cb st) = services st).
  { rewrite E. cbv zeta. repeat case_match; reflexivity. }
  assert (Hhp : heap (teardown [s] cb st) = h).
  { rewrite E. cbv zeta. repeat case_match; reflexivity. }
  destruct (remove_first_NoDup s _ Hnd) as [R1 R2].
  split; cbn; rewrite Hsv; [exact R1|].
  intros x Hx. apply R2 in Hx as [Hx Hne].
  unfold is_activated. cbn. rewrite Hhp, Hh.
  assert (Ex : existsb (Nat.eqb x) (List.filter (is_activated st) [s]) = false).
  { cbn. destruct (is_activated st s); cbn; [|reflexivity].
    rewrite orb_false_r. now apply Nat.eqb_neq. }
  rewrite Ex. exact (Hm x Hx).
Qed.

Lemma collection_publish nm ty pr st :
  collection_ok st -> collection_ok (publish nm ty pr st).
Proof.
  intros [Hnd Hm]. unfold publish, service_start. cbv zeta. apply collection_start.
  split; [exact Hnd|]. intros x Hx. specialize (Hm x Hx).
  unfold is_activated in *. cbn.
  destruct (heap st !! x) as [svc|] eqn:E; [|discriminate].
  rewrite lookup_app_l by (now apply lookup_lt_Some in E). now rewrite E.
Qed.

Lemma collection_step e st : collection_ok st -> collection_ok (step st e).
Proof.
  intros H. destruct e; simpl.
  - now apply collection_publish.
  - now apply collection_start.
  - now apply collection_stop.
  - split; [constructor|]. intros x Hx. now apply elem_of_nil in Hx.
  - eapply grows_collection; [apply grows_destroy|assumption].
  - unfold timeout.
    destruct (loop st !! t) as [[c w [| |]]|]; try assumption;
      destruct w; try assumption; cbv zeta;
      assert (HM : collection_ok (mark_ran t st))
        by (eapply grows_collection; [|exact H];
            apply grows_same; [apply services_mark_ran|apply heap_mark_ran]);
      (destruct c; try exact HM;
       [ eapply grows_collection; [apply grows_send|exact HM]
       | now apply collection_done
       | eapply grows_collection; [apply grows_broadcast|exact HM] ]).
  - unfold complete.
    destruct (loop st !! t) as [[c w [| |]]|]; try assumption;
      destruct w; try assumption; cbv zeta.
    assert (HM : collection_ok (mark_ran t st))
      by (eapply grows_collection; [|exact H];
          apply grows_same; [apply services_mark_ran|apply heap_mark_ran]).
    destruct c; try exact HM.
    + eapply grows_collection; [apply grows_send_cb|exact HM].
    + eapply grows_collection; [apply grows_broadcast_cb|exact HM].
    + eapply grows_collection; [apply grows_teardown_cb|exact HM].
  - now apply collection_emit_response.
  - eapply grows_collection; [apply grows_emit_error|assumption].
Qed.

Lemma collection_reachable (evs : list event) : collection_ok (run init evs).
Proof.
  assert (H : forall st, collection_ok st -> collection_ok (run st evs)).
  { unfold run. induction evs as [|e evs IH]; intros st H; simpl; [assumption|].
    apply IH. now apply collection_step. }
  apply H. split; [constructor|]. intros s Hs. now apply elem_of_nil in Hs.
Qed.

(** X9. Whatever is published, started, stopped, unpublished or destroyed,
    whatever timers fire and whatever the transport delivers, the active
    collection of the registry holds no service twice, and every service in
    it is activated (registry.js:38-46, 65-67, 89-92 and 27-28). *)
Theorem collection_has_no_duplicates (evs : list event) :
  NoDup (services (run init evs))
  /\ (forall s, s ∈ services (run init evs) -> is_activated (run init evs) s = true).
Proof.
  assert (H : forall st, collection_ok st -> collection_ok (run st evs)).
  { unfold run. induction evs as [|e evs IH]; intros st H; simpl; [assumption|].
    apply IH. now apply collection_step. }
  apply H. split; [constructor|]. intros s Hs. now apply elem_of_nil in Hs.
Qed.

(** X10. After [service.stop()], in any state the registry can reach, the
    service is not in the active collection, whether it was activated or
    not (registry.js:86-93). *)
Theorem stopped_service_not_tracked (evs : list event) (s : nat) (cb : option nat) :
  s ∉ services (run init (evs ++ [Stop s cb])).
Proof.
  unfold run. rewrite fold_left_app. simpl. fold (run init evs).
  destruct (collection_reachable evs) as [Hnd Hm].
  set (st := run init evs) in *. unfold stop.
  destruct (is_activated st s) eqn:Ha; cbn [negb].
  - cbn. destruct (teardown_unfold [s] cb st) as (h & _ & _ & E).
    assert (Hsv : services (teardown [s] cb st) = services st).
    { rewrite E. cbv zeta. repeat case_match; reflexivity. }
    rewrite Hsv. destruct (remove_first_NoDup s _ Hnd) as [_ R2].
    rewrite R2. tauto.
  - intros Hin. specialize (Hm s Hin). congruence.
Qed.

(** *** The backoff, whatever the interleaving *)

Lemma bounded_same st st' :
  loop st' = loop st -> announces st' = announces st ->
  backoff_bounded st -> backoff_bounded st'.
Proof. unfold backoff_bounded. now intros -> ->. Qed.

Lemma bounded_defer c w st :
  below_cap (mkTask c w Pending) -> backoff_bounded st -> backoff_bounded (defer c w st).
Proof.
  intros Hc [Hl Ha]. split; [|exact Ha]. cbn. apply Forall_app. split; [exact Hl|].
  now constructor.
Qed.

Lemma bounded_status t st0 st :
  backoff_bounded st ->
  backoff_bounded
    match loop st !! t with
    | Some (mkTask c w _) => with_loop (<[t := mkTask c w st0]> (loop st)) st
    | None => st
    end.
Proof.
  intros [Hl Ha]. destruct (loop st !! t) as [[c w s0]|] eqn:E; [|now split].
  split; [|exact Ha]. cbn. apply Forall_insert; [exact Hl|].
  rewrite Forall_lookup in Hl. exact (Hl t _ E).
Qed.

Lemma bounded_mark_ran t st : backoff_bounded st -> backoff_bounded (mark_ran t st).
Proof. apply bounded_status. Qed.

Lemma bounded_clearTimeout t st : backoff_bounded st -> backoff_bounded (clearTimeout t st).
Proof.
  intros H. unfold clearTimeout. destruct t as [i|]; [|assumption].
  pose proof (bounded_status i Cleared st H) as B.
  destruct (loop st !! i) as [[c w [| |]]|]; assumption.
Qed.

Lemma bounded_broadcast a st : backoff_bounded st -> backoff_bounded (broadcast a st).
Proof.
  intros H. unfold broadcast. repeat case_match; try assumption.
  apply bounded_defer; [exact I|]. now apply (bounded_same st).
Qed.

Lemma bounded_broadcast_cb a st : backoff_bounded st -> backoff_bounded (broadcast_cb a st).
Proof.
  intros H. unfold broadcast_cb.
  destruct (announces st !! a) as [ctx|] eqn:Ha; [|assumption].
  destruct (heap st !! a_service ctx) as [svc|]; [|assumption]. cbv zeta.
  assert (Hd : 1000 <= delay ctx).
  { destruct H as [_ H]. rewrite Forall_lookup in H. exact (H a ctx Ha). }
  match goal with |- context [with_announces ?l ?Y] =>
    assert (HY : backoff_bounded (with_announces l Y)) end.
  { destruct H as [Hl Hann]. split.
    - destruct (published svc); exact Hl.
    - cbn [announces with_announces].
      replace (announces (if negb (published svc)
                 then say (Emit (a_service ctx) "up")
                        (set_service (a_service ctx)
                           (set_published true (set_activated true svc)) st)
                 else st)) with (announces st) by (now destruct (published svc)).
      apply Forall_insert; [exact Hann|]. cbn. unfold REANNOUNCE_FACTOR. lia. }
  destruct (_ <? _) eqn:Hlt; cbn [andb]; [|exact HY].
  destruct (negb (_destroyed svc)); [|exact HY].
  apply bounded_defer; [|exact HY]. cbn. apply Z.ltb_lt in Hlt.
  unfold REANNOUNCE_FACTOR in *. lia.
Qed.

Lemma bounded_announce s st : backoff_bounded st -> backoff_bounded (announce s st).
Proof.
  intros [Hl Ha]. unfold announce. destruct (heap st !! s) as [svc|]; [|now split].
  cbv zeta. apply bounded_broadcast. split; [exact Hl|].
  cbn. apply Forall_app. split; [exact Ha|]. constructor; [cbn; lia|constructor].
Qed.

Lemma bounded_send p st : backoff_bounded st -> backoff_bounded (send p st).
Proof.
  intros H. unfold send. repeat case_match; try assumption.
  apply bounded_defer; [exact I|]. now apply (bounded_same st).
Qed.

Lemma bounded_send_cb p st : backoff_bounded st -> backoff_bounded (send_cb p st).
Proof.
  intros H. unfold send_cb. destruct (probes st !! p) as [ctx|]; [|assumption].
  cbv zeta. eapply bounded_same; [reflexivity|reflexivity|].
  apply bounded_defer; [|assumption]. now destruct (_ <? _)%nat.
Qed.

Lemma bounded_start s args st : backoff_bounded st -> backoff_bounded (start s args st).
Proof.
  intros H. unfold start. destruct (heap st !! s) as [svc|]; [|assumption].
  destruct (_activated svc); [assumption|]. cbv zeta.
  match goal with |- context [with_error_listeners ?l ?Y] =>
    assert (HY : backoff_bounded (with_error_listeners l Y))
      by (now apply (bounded_same st)) end.
  destruct (opts_probe _) as [[|]|].
  - unfold probe. cbv zeta. apply bounded_defer; [exact I|].
    eapply bounded_same; [reflexivity|reflexivity|exact HY].
  - now apply bounded_announce.
  - eapply bounded_same; [reflexivity|reflexivity|exact HY].
Qed.

Lemma bounded_done p found st : backoff_bounded st -> backoff_bounded (done p found st).
Proof.
  intros H. unfold done. destruct (probes st !! p) as [ctx|]; [|assumption].
  cbv zeta.
  match goal with |- context [probed p found ?Y] =>
    assert (HY : backoff_bounded Y) end.
  { eapply bounded_same; [reflexivity|reflexivity|].
    apply bounded_clearTimeout. now apply (bounded_same st). }
  unfold probed. cbn [probes say with_log].
  match goal with |- context [probes ?Z !! p] => destruct (probes Z !! p) as [c0|] end;
    [|exact HY].
  destruct found; [|now apply bounded_announce].
  match goal with |- context [heap ?Z !! ?i] => destruct (heap Z !! i) as [svc|] end;
    [|exact HY].
  cbv zeta. unfold service_start. apply bounded_start.
  eapply bounded_same; [reflexivity|reflexivity|exact HY].
Qed.

Lemma bounded_teardown ss cb st : backoff_bounded st -> backoff_bounded (teardown ss cb st).
Proof.
  intros H. destruct (teardown_unfold ss cb st) as (h & _ & _ & ->). cbv zeta.
  assert (HY : backoff_bounded (with_heap h st)) by (now apply (bounded_same st)).
  destruct (goodbyes st _).
  - destruct cb; [|exact HY]. eapply bounded_same; [reflexivity|reflexivity|exact HY].
  - apply bounded_defer; [exact I|].
    eapply bounded_same; [reflexivity|reflexivity|exact HY].
Qed.

Lemma bounded_step e st : backoff_bounded st -> backoff_bounded (step st e).
Proof.
  intros H. destruct e; simpl.
  - unfold publish, service_start. cbv zeta. apply bounded_start.
    now apply (bounded_same st).
  - now apply bounded_start.
  - unfold stop. destruct (negb _); [assumption|]. cbv zeta.
    eapply bounded_same; [reflexivity|reflexivity|]. now apply bounded_teardown.
  - unfold unpublishAll. cbv zeta.
    eapply bounded_same; [reflexivity|reflexivity|]. now apply bounded_teardown.
  - unfold destroy.
    apply (fold_left_keeps backoff_bounded); [|assumption].
    intros x s0 Hx. destruct (heap x !! s0); [|assumption]. now apply (bounded_same x).
  - unfold timeout.
    destruct (loop st !! t) as [[c w [| |]]|]; try assumption;
      destruct w; try assumption; cbv zeta;
      pose proof (bounded_mark_ran t st H) as HM;
      (destruct c; try exact HM;
       [now apply bounded_send|now apply bounded_done|now apply bounded_broadcast]).
  - unfold complete.
    destruct (loop st !! t) as [[c w [| |]]|]; try assumption;
      destruct w; try assumption; cbv zeta.
    pose proof (bounded_mark_ran t st H) as HM.
    destruct c; try exact HM.
    + now apply bounded_send_cb.
    + now apply bounded_broadcast_cb.
    + unfold teardown_cb. destruct (unpublish_fold ss (mark_ran t st)) as (h & E & _).
      cbv zeta in E. rewrite E.
      destruct cb; eapply bounded_same; try reflexivity; exact HM.
  - unfold emit_response. apply (fold_left_keeps backoff_bounded); [|assumption].
    intros x p Hx. unfold onresponse. repeat case_match; try assumption.
    now apply bounded_done.
  - assert (E : exists m, emit_error err st = say (Throw m) st).
    { unfold emit_error. destruct (error_listeners st) as [|[s0 o] l]; eexists; reflexivity. }
    destruct E as [m ->]. now apply (bounded_same st).
Qed.

(** X11. However calls, timers, transport callbacks and responses
    interleave, every timer the registry has ever set for a re-broadcast has
    a delay of at least 3000 ms and below 3,600,000 ms
    (registry.js:159 and 176-178). *)
Theorem backoff_always_below_cap (evs : list event) :
  Forall below_cap (loop (run init evs)).
Proof.
  assert (H : forall st, backoff_bounded st -> backoff_bounded (run st evs)).
  { unfold run. induction evs as [|e evs IH]; intros st H; simpl; [assumption|].
    apply IH. now apply bounded_step. }
  apply H. split; constructor.
Qed.

(** *** A probe whose service is stopped *)



(** *** publish *)

Lemma start_fresh s args X svc0 :
  heap X !! s = Some svc0 -> _activated svc0 = false ->
  start s args X
  = let opts := nth 1 args VUndefined in
    let svc1 := if truthy_name (_originalName (set_activated true svc0))
                then set_activated true svc0
                else set_original (Some (name (set_activated true svc0))) (Some 1%nat)
                       (set_activated true svc0) in
    let Y := with_error_listeners (error_listeners X ++ [(s, opts)])
               (with_services (services X ++ [s]) (set_service s svc1 X)) in
    match opts_probe opts with
    | None => say (Throw "TypeError") Y
    | Some true => probe s opts Y
    | Some false => announce s Y
    end.
Proof.
  intros H Ha. unfold start. now rewrite H, Ha.
Qed.

(** X13. [publish] creates the service, activates it with its original name
    and first attempt, and adds it to the active collection.  With
    [probe: false] its records are registered and broadcast at once and no
    probe is started; otherwise nothing is sent yet: a probe is started, its
    'response' listener registered and its jitter timer set
    (registry.js:18-24 and 37-84). *)
Theorem publish_starts_service (nm ty : string) (pr : option bool) (st : State) :
  let s := length (heap st) in
  let svc := mkService nm ty (nm ++ "." ++ ty)%string false true false (Some nm) (Some 1%nat) in
  let st' := publish nm ty pr st in
  heap st' = heap st ++ [svc]
  /\ services st' = services st ++ [s]
  /\ match pr with
     | Some false =>
         log st' = log st ++ [Register (_records svc); Respond (_records svc)]
         /\ probes st' = probes st
         /\ response_listeners st' = response_listeners st
     | _ =>
         log st' = log st
         /\ probes st' = probes st ++ [mkProbe s (VOpts true) false 0 None]
         /\ response_listeners st' = response_listeners st ++ [length (probes st)]
         /\ loop st' = loop st ++ [mkTask (CbSend (length (probes st))) Jitter Pending]
     end.
Proof.
  intros s svc st'.
  assert (Hins : <[s := svc]> (heap st ++ [new_Service nm ty]) = heap st ++ [svc]).
  { unfold s. rewrite insert_app_r_alt by lia. now rewrite Nat.sub_diag. }
  set (b := match pr with Some false => false | _ => true end).
  set (X := with_heap (heap st ++ [new_Service nm ty]) st).
  assert (HX : heap X !! s = Some (new_Service nm ty))
    by (apply list_lookup_middle; reflexivity).
  assert (E : st' = start s [VRegistry; VOpts b] X) by reflexivity.
  rewrite (start_fresh s [VRegistry; VOpts b] X _ HX eq_refl) in E.
  cbn [nth opts_probe] in E.
  match type of E with context [with_error_listeners ?l ?Z] =>
    set (Y := with_error_listeners l Z) in E end.
  assert (HY : heap Y = heap st ++ [svc]) by exact Hins.
  assert (Hh : heap Y !! s = Some svc).
  { rewrite HY. apply list_lookup_middle. reflexivity. }
  assert (HE : st' = if b then probe s (VOpts b) Y else announce s Y)
    by (rewrite E; now destruct b).
  clear E. unfold b in HE.
  destruct pr as [[|]|]; rewrite HE.
  - split; [exact HY|]. repeat split; reflexivity.
  - rewrite (log_announce_active s svc Y Hh eq_refl eq_refl).
    rewrite probes_announce, listeners_announce.
    destruct (grows_announce s Y) as [-> _].
    assert (Hheap : heap (announce s Y) = heap Y).
    { unfold announce. rewrite Hh. unfold broadcast. same_field. }
    rewrite Hheap. split; [exact HY|]. repeat split; reflexivity.
  - split; [exact HY|]. repeat split; reflexivity.
Qed.

(** *** How names are built *)











(** *** The timers of every announce cycle *)

Lemma scheduled_0 a st : scheduled a 0 st = omap (backoff_of a) (loop st).
Proof. reflexivity. Qed.

Lemma omap_cons_eq {A B : Type} (f : A -> option B) (x y : A) (l : list A) :
  f y = f x -> omap f (y :: l) = omap f (x :: l).
Proof. intros E. cbn. now rewrite E. Qed.

Lemma omap_insert_same {A B : Type} (f : A -> option B) (l : list A) (i : nat) (x y : A) :
  l !! i = Some x -> f y = f x -> omap f (<[i := y]> l) = omap f l.
Proof.
  intros H E. rewrite <- (take_drop_middle l i x H) at 2.
  rewrite insert_take_drop by (now apply lookup_lt_Some in H).
  rewrite !omap_app. f_equal. now apply omap_cons_eq.
Qed.

Lemma cycle_ok_ext st st' a ctx :
  scheduled a 0 st' = scheduled a 0 st ->
  (is_destroyed st (a_service ctx) = true -> is_destroyed st' (a_service ctx) = true) ->
  cycle_ok st a ctx -> cycle_ok st' a ctx.
Proof.
  intros B C H. unfold cycle_ok in *. rewrite B.
  destruct H as [H|[H|[Hd H]]]; [now left|right; now left|right; right].
  split; [now apply C|exact H].
Qed.

Lemma steady_refl st : steady st st.
Proof. now repeat split. Qed.

Lemma steady_trans st1 st2 st3 : steady st1 st2 -> steady st2 st3 -> steady st1 st3.
Proof.
  intros (A1 & B1 & C1) (A2 & B2 & C2). split; [congruence|]. split.
  - intros a. now rewrite B2.
  - auto.
Qed.

Lemma steady_cycles st st' : steady st st' -> cycles_ok st -> cycles_ok st'.
Proof.
  intros (A & B & C) [H1 H2]. split.
  - intros a ctx Ha. rewrite A in Ha.
    apply (cycle_ok_ext st); [apply B|apply C|now apply H1].
  - intros a Ha. rewrite B. apply H2. now rewrite <- A.
Qed.

Lemma steady_heap st st' :
  announces st' = announces st -> loop st' = loop st ->
  (forall s, is_destroyed st s = true -> is_destroyed st' s = true) ->
  steady st st'.
Proof.
  intros A L D. split; [exact A|]. split; [|exact D].
  intros a. unfold scheduled. now rewrite L.
Qed.

Lemma steady_same st st' :
  announces st' = announces st -> loop st' = loop st -> heap st' = heap st ->
  steady st st'.
Proof.
  intros A L H. apply steady_heap; [assumption..|].
  intros s. unfold is_destroyed. now rewrite H.
Qed.

Lemma steady_with_heap h st :
  (forall s, _destroyed <$> h !! s = _destroyed <$> heap st !! s) ->
  steady st (with_heap h st).
Proof.
  intros H. apply steady_heap; [reflexivity..|].
  intros s. unfold is_destroyed. cbn [heap with_heap]. specialize (H s).
  destruct (h !! s), (heap st !! s); simpl in H; congruence.
Qed.

Lemma steady_set_service s v svc X :
  heap X !! s = Some svc -> (_destroyed svc = true -> _destroyed v = true) ->
  steady X (set_service s v X).
Proof.
  intros Hs Hv. apply steady_heap; [reflexivity..|].
  intros s'. unfold is_destroyed. rewrite lookup_set_service.
  destruct (decide _) as [[<- _]|_]; [|auto]. rewrite Hs. exact Hv.
Qed.

Lemma steady_defer c w st :
  (forall a, backoff_of a (mkTask c w Pending) = None) -> steady st (defer c w st).
Proof.
  intros Hc. split; [reflexivity|]. split; [|intros s H; exact H].
  intros a. rewrite !scheduled_0. cbn [loop defer with_loop]. rewrite omap_app.
  cbn [omap list_omap]. rewrite Hc. apply app_nil_r.
Qed.

Lemma steady_status t st0 st :
  steady st
    match loop st !! t with
    | Some (mkTask c w _) => with_loop (<[t := mkTask c w st0]> (loop st)) st
    | None => st
    end.
Proof.
  destruct (loop st !! t) as [[c w s0]|] eqn:E; [|apply steady_refl].
  split; [reflexivity|]. split; [|intros s H; exact H].
  intros a. rewrite !scheduled_0. cbn [loop with_loop].
  apply (omap_insert_same _ _ _ _ _ E). reflexivity.
Qed.

Lemma steady_mark_ran t st : steady st (mark_ran t st).
Proof. apply steady_status. Qed.

Lemma steady_clearTimeout t st : steady st (clearTimeout t st).
Proof.
  unfold clearTimeout. destruct t as [i|]; [|apply steady_refl].
  pose proof (steady_status i Cleared st) as B.
  destruct (loop st !! i) as [[c w [| |]]|]; first [exact B | apply steady_refl].
Qed.

Lemma steady_broadcast a st : steady st (broadcast a st).
Proof.
  unfold broadcast. repeat case_match; try apply steady_refl.
  eapply steady_trans; [|apply steady_defer; intros; reflexivity].
  now apply steady_same.
Qed.

Lemma steady_send p st : steady st (send p st).
Proof.
  unfold send. repeat case_match; try apply steady_refl.
  eapply steady_trans; [|apply steady_defer; intros; reflexivity].
  now apply steady_same.
Qed.

Lemma steady_send_cb p st : steady st (send_cb p st).
Proof.
  unfold send_cb. destruct (probes st !! p) as [ctx|]; [|apply steady_refl].
  cbv zeta. eapply steady_trans; [|now apply steady_same].
  apply steady_defer. intros. now destruct (_ <? _)%nat.
Qed.

Lemma steady_probe s opts st : steady st (probe s opts st).
Proof.
  unfold probe. cbv zeta.
  eapply steady_trans; [|apply steady_defer; intros; reflexivity].
  now apply steady_same.
Qed.

Lemma steady_teardown ss cb st : steady st (teardown ss cb st).
Proof.
  destruct (teardown_unfold ss cb st) as (h & _ & Hh & ->). cbv zeta.
  assert (HY : steady st (with_heap h st)).
  { apply steady_with_heap. intros s. rewrite Hh.
    destruct (existsb _ _); [|reflexivity]. now destruct (heap st !! s). }
  destruct (goodbyes st _).
  - destruct cb; [|exact HY]. eapply steady_trans; [exact HY|now apply steady_same].
  - eapply steady_trans; [|apply steady_defer; intros; reflexivity].
    eapply steady_trans; [exact HY|now apply steady_same].
Qed.

Lemma steady_teardown_cb ss cb r st : steady st (teardown_cb ss cb r st).
Proof.
  unfold teardown_cb. destruct (unpublish_fold ss st) as (h & E & Hh).
  cbv zeta in E. rewrite E.
  assert (HY : steady st (with_heap h st)).
  { apply steady_with_heap. intros s. rewrite Hh.
    destruct (existsb _ _); [|reflexivity]. now destruct (heap st !! s). }
  destruct cb; [|exact HY]. eapply steady_trans; [exact HY|now apply steady_same].
Qed.

Lemma steady_destroy st : steady st (destroy st).
Proof.
  unfold destroy. apply (fold_left_keeps (steady st)); [|apply steady_refl].
  intros x s0 Hx. destruct (heap x !! s0) as [svc|] eqn:Hs; [|assumption].
  eapply steady_trans; [exact Hx|].
  apply (steady_set_service _ _ _ _ Hs). reflexivity.
Qed.

Lemma steady_emit_error err st : steady st (emit_error err st).
Proof.
  assert (E : exists m, emit_error err st = say (Throw m) st).
  { unfold emit_error. destruct (error_listeners st) as [|[s0 o] l]; eexists; reflexivity. }
  destruct E as [m ->]. now apply steady_same.
Qed.

(** A new cycle starts with the delay 1000 and no timer. *)
Lemma cycles_announce s st : cycles_ok st -> cycles_ok (announce s st).
Proof.
  intros [H1 H2]. unfold announce. destruct (heap st !! s) as [svc|]; [|now split].
  cbv zeta. apply (steady_cycles _ _ (steady_broadcast _ _)).
  split.
  - intros a ctx Ha. cbn [announces say with_log with_announces] in Ha.
    destruct (decide (a < length (announces st))%nat) as [Hlt|Hge].
    + rewrite lookup_app_l in Ha by assumption.
      apply (cycle_ok_ext st); [reflexivity|intros H; exact H|now apply H1].
    + assert (Ea : a = length (announces st)).
      { apply lookup_lt_Some in Ha. rewrite length_app in Ha. cbn in Ha. lia. }
      subst a. rewrite list_lookup_middle in Ha by reflexivity. injection Ha as <-.
      left. exists 0%nat. split; [lia|]. split; [reflexivity|].
      apply (H2 _ (Nat.le_refl _)).
  - intros a Ha. cbn [announces say with_log with_announces] in Ha.
    rewrite length_app in Ha. cbn in Ha. apply (H2 a). lia.
Qed.

(** A broadcast completes: the delay is tripled, and a timer is set with the
    new delay unless it has reached the cap or the service is destroyed;
    from then on the cycle sets no timer. *)
Lemma cycles_broadcast_cb a st : cycles_ok st -> cycles_ok (broadcast_cb a st).
Proof.
  intros [H1 H2]. unfold broadcast_cb.
  destruct (announces st !! a) as [ctx|] eqn:Ha; [|now split].
  destruct (heap st !! a_service ctx) as [svc|] eqn:Hs; [|now split]. cbv zeta.
  set (d := delay ctx * REANNOUNCE_FACTOR).
  set (Y := if negb (published svc)
            then say (Emit (a_service ctx) "up")
                   (set_service (a_service ctx)
                      (set_published true (set_activated true svc)) st)
            else st).
  assert (SY : steady st Y).
  { unfold Y. destruct (published svc); cbn [negb]; [apply steady_refl|].
    apply (steady_trans _ (set_service (a_service ctx)
                             (set_published true (set_activated true svc)) st));
      [apply (steady_set_service _ _ _ _ Hs); intros H; exact H|].
    now apply steady_same. }
  destruct SY as (HA & SB & SD).
  assert (Hlt : (a < length (announces st))%nat) by (now apply lookup_lt_Some in Ha).
  assert (Hother : forall W a' ctx',
            a' <> a -> announces W = <[a := mkAnnounce (a_service ctx) d (packet ctx)]> (announces st) ->
            scheduled a' 0 W = scheduled a' 0 st ->
            (forall s, is_destroyed st s = true -> is_destroyed W s = true) ->
            announces W !! a' = Some ctx' -> cycle_ok W a' ctx').
  { intros W a' ctx' Hne EA ES ED Ha'. rewrite EA in Ha'.
    rewrite list_lookup_insert_ne in Ha' by congruence.
    apply (cycle_ok_ext st); [exact ES|apply ED|now apply H1]. }
  assert (Hbeyond : forall W,
            announces W = <[a := mkAnnounce (a_service ctx) d (packet ctx)]> (announces st) ->
            (forall a', a' <> a -> scheduled a' 0 W = scheduled a' 0 st) ->
            forall a', (length (announces W) <= a')%nat -> scheduled a' 0 W = []).
  { intros W EA ES a' Hge. rewrite EA, length_insert in Hge.
    rewrite ES by lia. apply H2. lia. }
  destruct ((d <? REANNOUNCE_MAX_MS) && negb (_destroyed svc))%bool eqn:Hf.
  - (* the next broadcast is scheduled *)
    apply andb_prop in Hf as [Hcap Hnd]. apply Z.ltb_lt in Hcap.
    apply negb_true_iff in Hnd.
    match goal with |- cycles_ok ?W0 => set (W := W0) end.
    assert (EA : announces W = <[a := mkAnnounce (a_service ctx) d (packet ctx)]> (announces st))
      by (unfold W; cbn [announces defer with_loop with_announces]; now rewrite HA).
    assert (ES : forall a', scheduled a' 0 W
                 = scheduled a' 0 st ++ (if Nat.eqb a a' then [d] else [])).
    { intros a'. unfold W. rewrite scheduled_0.
      cbn [loop defer with_loop with_announces]. rewrite omap_app.
      rewrite <- scheduled_0, SB. f_equal. cbn [omap list_omap backoff_of].
      now destruct (Nat.eqb a a'). }
    assert (ED : forall s, is_destroyed st s = true -> is_destroyed W s = true)
      by (intros s H; exact (SD s H)).
    split.
    + intros a' ctx' Ha'. destruct (decide (a' = a)) as [->|Hne].
      * rewrite EA, list_lookup_insert_eq in Ha' by assumption. injection Ha' as <-.
        destruct (H1 a ctx Ha) as [(k & Hk & Hdel & Hsch)|[[Hmax _]|[Hdes _]]].
        -- assert (Hk7 : (k < 7)%nat).
           { destruct (decide (k = 7%nat)) as [->|]; [|lia]. exfalso.
             unfold d in Hcap. rewrite Hdel in Hcap. vm_compute in Hcap. discriminate. }
           destruct (backoff_next k Hk7) as (Hd1 & _ & Hd3).
           left. exists (S k). split; [lia|]. split.
           ++ cbn [delay]. unfold d. now rewrite Hdel.
           ++ rewrite ES, Nat.eqb_refl, Hsch, Hd3. unfold d. now rewrite Hdel, Hd1.
        -- exfalso. unfold d, REANNOUNCE_FACTOR, REANNOUNCE_MAX_MS in *. lia.
        -- exfalso. unfold is_destroyed in Hdes. rewrite Hs in Hdes. congruence.
      * apply (Hother W a' ctx' Hne EA); [|exact ED|exact Ha'].
        rewrite ES. destruct (Nat.eqb_spec a a'); [congruence|apply app_nil_r].
    + apply (Hbeyond W EA). intros a' Hne. rewrite ES.
      destruct (Nat.eqb_spec a a'); [congruence|apply app_nil_r].
  - (* the cycle sets no further timer *)
    match goal with |- cycles_ok ?W0 => set (W := W0) end.
    assert (EA : announces W = <[a := mkAnnounce (a_service ctx) d (packet ctx)]> (announces st))
      by (unfold W; cbn [announces with_announces]; now rewrite HA).
    assert (ES : forall a', scheduled a' 0 W = scheduled a' 0 st)
      by (intros a'; exact (SB a')).
    assert (ED : forall s, is_destroyed st s = true -> is_destroyed W s = true)
      by (intros s H; exact (SD s H)).
    split.
    + intros a' ctx' Ha'. destruct (decide (a' = a)) as [->|Hne].
      * rewrite EA, list_lookup_insert_eq in Ha' by assumption. injection Ha' as <-.
        unfold cycle_ok. cbn [delay a_service]. rewrite ES.
        destruct (H1 a ctx Ha) as [(k & Hk & Hdel & Hsch)|[[Hmax Hsch]|[Hdes Hsch]]].
        -- destruct (_destroyed svc) eqn:Hdes.
           ++ right; right. split; [|now exists k].
              apply ED. unfold is_destroyed. now rewrite Hs.
           ++ rewrite andb_true_r in Hf. apply Z.ltb_ge in Hf.
              assert (Hk7 : k = 7%nat).
              { destruct (decide (k < 7)%nat) as [Hlt7|]; [|lia]. exfalso.
                destruct (backoff_next k Hlt7) as (Hd1 & Hd2 & _).
                apply Z.ltb_lt in Hd2. unfold d in Hf. rewrite Hdel, Hd1 in Hf. lia. }
              subst k. right; left. split; [exact Hf|exact Hsch].
        -- right; left. split; [|exact Hsch].
           unfold d, REANNOUNCE_FACTOR, REANNOUNCE_MAX_MS in *. lia.
        -- right; right. split; [now apply ED|exact Hsch].
      * apply (Hother W a' ctx' Hne EA); [apply ES|exact ED|exact Ha'].
    + apply (Hbeyond W EA). intros a' _. apply ES.
Qed.

Lemma cycles_start s args st : cycles_ok st -> cycles_ok (start s args st).
Proof.
  intros H. unfold start. destruct (heap st !! s) as [svc|] eqn:Hs; [|assumption].
  destruct (_activated svc); [assumption|]. cbv zeta.
  match goal with |- context [with_error_listeners ?l (with_services ?m (set_service s ?v st))] =>
    assert (HY : cycles_ok (with_error_listeners l (with_services m (set_service s v st))))
  end.
  { eapply steady_cycles; [|exact H].
    eapply steady_trans; [|now apply steady_same].
    apply (steady_set_service _ _ _ _ Hs). intros Hd. now destruct (truthy_name _). }
  destruct (opts_probe _) as [[|]|].
  - apply (steady_cycles _ _ (steady_probe _ _ _)). exact HY.
  - now apply cycles_announce.
  - eapply steady_cycles; [|exact HY]. now apply steady_same.
Qed.

Lemma cycles_done p found st : cycles_ok st -> cycles_ok (done p found st).
Proof.
  intros H. unfold done. destruct (probes st !! p) as [ctx|]; [|assumption].
  cbv zeta.
  match goal with |- context [probed p found ?Y] =>
    assert (HY : cycles_ok Y) end.
  { eapply steady_cycles; [|exact H].
    eapply steady_trans; [|now apply steady_same].
    eapply steady_trans; [|apply steady_clearTimeout]. now apply steady_same. }
  unfold probed. cbn [probes say with_log].
  match goal with |- context [probes ?Z !! p] => destruct (probes Z !! p) as [c0|] end;
    [|exact HY].
  destruct found; [|now apply cycles_announce].
  match goal with |- context [heap ?Z !! ?i] => destruct (heap Z !! i) as [svc|] eqn:Hs end;
    [|exact HY].
  cbv zeta. unfold service_start. apply cycles_start.
  eapply steady_cycles; [|exact HY].
  eapply steady_trans; [|now apply steady_same].
  eapply steady_trans; [|apply (steady_set_service _ _ _ _ Hs); intros Hd; exact Hd].
  now apply steady_same.
Qed.

Lemma cycles_step e st : cycles_ok st -> cycles_ok (step st e).
Proof.
  intros H. destruct e; simpl.
  - unfold publish, service_start. cbv zeta. apply cycles_start.
    eapply steady_cycles; [|exact H]. apply steady_heap; [reflexivity..|].
    intros s. unfold is_destroyed. cbn [heap with_heap].
    destruct (heap st !! s) as [svc|] eqn:Hs; [|discriminate].
    rewrite lookup_app_l by (now apply lookup_lt_Some in Hs). now rewrite Hs.
  - now apply cycles_start.
  - unfold stop. destruct (negb _); [assumption|]. cbv zeta.
    eapply steady_cycles; [|exact H].
    eapply steady_trans; [apply steady_teardown|now apply steady_same].
  - unfold unpublishAll. cbv zeta.
    eapply steady_cycles; [|exact H].
    eapply steady_trans; [apply steady_teardown|now apply steady_same].
  - apply (steady_cycles _ _ (steady_destroy _)). exact H.
  - unfold timeout.
    destruct (loop st !! t) as [[c w [| |]]|]; try assumption;
      destruct w; try assumption; cbv zeta;
      pose proof (steady_cycles _ _ (steady_mark_ran t st) H) as HM;
      (destruct c; try exact HM;
       [exact (steady_cycles _ _ (steady_send _ _) HM)
       |now apply cycles_done
       |exact (steady_cycles _ _ (steady_broadcast _ _) HM)]).
  - unfold complete.
    destruct (loop st !! t) as [[c w [| |]]|]; try assumption;
      destruct w; try assumption; cbv zeta.
    pose proof (steady_cycles _ _ (steady_mark_ran t st) H) as HM.
    destruct c; try exact HM.
    + exact (steady_cycles _ _ (steady_send_cb _ _) HM).
    + now apply cycles_broadcast_cb.
    + exact (steady_cycles _ _ (steady_teardown_cb _ _ _ _) HM).
  - unfold emit_response. apply (fold_left_keeps cycles_ok); [|assumption].
    intros x p Hx. unfold onresponse. repeat case_match; try assumption.
    now apply cycles_done.
  - apply (steady_cycles _ _ (steady_emit_error _ _)). exact H.
Qed.

Lemma cycles_run evs : forall st, cycles_ok st -> cycles_ok (run st evs).
Proof.
  unfold run. induction evs as [|e evs IH]; intros st H; simpl; [assumption|].
  apply IH. now apply cycles_step.
Qed.

Lemma cycles_init : cycles_ok init.
Proof.
  split.
  - intros a ctx Ha. destruct a; discriminate.
  - intros a _. reflexivity.
Qed.

(** C2, as the code has it.  Whatever calls, timers, transport callbacks
    and responses interleave, the timers an announce cycle has set for its
    next broadcasts have, in order, the delays 3000, 9000, 27000, 81000,
    243000, 729000 and 2187000 ms, as far as the cycle has got: each delay
    is three times the one before, the first one is 3000 ms and not
    1000 ms, and no timer is set once the tripled delay is not below
    3,600,000 ms.  A cycle started by [announce] on an activated service that
    is not destroyed, and left to run, makes its first broadcast at once,
    one more each time a timer fires, and goes through all seven delays:
    after [n] of its callbacks have run, [(n + 1) / 2] timers have been set
    and [n / 2 + 1] broadcasts of the service's records have gone out, eight
    at most. *)
Theorem announce_backoff_schedule :
  (forall (evs : list event) (a : nat),
      exists k, scheduled a 0 (run init evs) = take k backoff)
  /\ (forall (st : State) (s : nat) (svc : Service) (n : nat),
        heap st !! s = Some svc -> _activated svc = true -> _destroyed svc = false ->
        let st' := Nat.iter n fire_last (announce s st) in
        scheduled (length (announces st)) (length (loop st)) st'
        = take ((n + 1) / 2) backoff
        /\ transmissions st'
           = transmissions st
             ++ replicate (Nat.min (S (n / 2)) 8) (Respond (_records svc))).
Proof.
  split.
  - intros evs a. destruct (cycles_run evs init cycles_init) as [H1 H2].
    destruct (announces (run init evs) !! a) as [ctx|] eqn:Ha.
    + destruct (H1 a ctx Ha) as [(k & _ & _ & E)|[[_ E]|[_ [j E]]]].
      * now exists k.
      * now exists 7%nat.
      * now exists j.
    + exists 0%nat. apply H2. now apply lookup_ge_None.
  - intros st s svc n Hh Hact Hdes st'.
    pose proof (cycle_begin s st svc Hh Hact Hdes) as H0.
    unfold st'. clear st'.
    set (a := length (announces st)) in *. set (from := length (loop st)) in *.
    set (X := announce s st) in *.
    destruct (Nat.le_gt_cases 15 n) as [Hbig|Hsmall].
    + (* the cycle is over *)
      destruct (cycle_end a s from _ _ _ _
                  (cycle_even a s from _ _ X 7 (Nat.le_refl _) H0)) as (E & T & F).
      assert (EX : Nat.iter n fire_last X = fire_last (Nat.iter (2 * 7) fire_last X)).
      { replace n with ((n - 15) + (1 + 2 * 7))%nat by lia.
        rewrite iter_add, (iter_add _ _ 1).
        change (Nat.iter 1 fire_last ?x) with (fire_last x).
        apply (iter_fixed _ _ _ F). }
      rewrite EX, E, T.
      assert (Hdiv : (7 <= n / 2)%nat) by (apply (Nat.div_le_lower_bound _ 2 7); lia).
      split.
      * rewrite firstn_all2; [reflexivity|].
        change (length backoff) with 7%nat.
        apply (Nat.div_le_lower_bound _ 2 7); lia.
      * f_equal. f_equal. lia.
    + destruct (Nat.Even_or_Odd n) as [[k ->]|[k ->]].
      * destruct (cycle_even a s from _ _ X k ltac:(lia) H0)
          as (_ & _ & _ & _ & E & _ & _ & _ & _ & T).
        rewrite E, T.
        assert (D1 : ((2 * k + 1) / 2 = k)%nat) by (symmetry; apply (Nat.div_unique _ 2 k 1); lia).
        assert (D2 : ((2 * k) / 2 = k)%nat) by (symmetry; apply (Nat.div_unique _ 2 k 0); lia).
        rewrite D1, D2. split; [reflexivity|]. f_equal. f_equal. lia.
      * destruct (cycle_complete a s from k _ _ _ _ ltac:(lia)
                    (cycle_even a s from _ _ X k ltac:(lia) H0))
          as (_ & _ & _ & _ & E & _ & _ & _ & _ & T).
        assert (EX : Nat.iter (2 * k + 1) fire_last X
                     = fire_last (Nat.iter (2 * k) fire_last X)).
        { replace (2 * k + 1)%nat with (S (2 * k)) by lia. apply Nat.iter_succ. }
        rewrite EX, E, T.
        assert (D1 : ((2 * k + 1 + 1) / 2 = S k)%nat)
          by (symmetry; apply (Nat.div_unique _ 2 (S k) 0); lia).
        assert (D2 : ((2 * k + 1) / 2 = k)%nat) by (symmetry; apply (Nat.div_unique _ 2 k 1); lia).
        rewrite D1, D2. split; [reflexivity|]. f_equal. f_equal. lia.
Qed.

End Registry.

(** ** Concrete runs

    The service of the spec's scenarios: [publish({name: "Printer",
    type: "http", port: 80})].  Callbacks are named by their position in the
    loop. *)

(** C1.  Scenario B.  The probe of "Printer.http" has completed its first
    query when a response naming it arrives.  The service is renamed
    "Printer (2)" with [_nameAttempt] 2 and is back in the active
    collection, but the restart does not probe: [service.start(registry,
    opts)] goes through the bound [start], whose [opts] is then the registry
    (no [probe] property), so the records of "Printer (2).http" are
    registered and broadcast at once, and no query for the new name is ever
    sent.  In any state, the conflict branch creates no probe. *)
Theorem conflict_restart_skips_probe :
  let st := run sample_records init
              [Publish "Printer" "http" None; Timeout 0; Complete 1 None;
               Response conflicting] in
  let renamed := mkService "Printer (2)" "http" "Printer (2).http" false true false
                           (Some "Printer"%string) (Some 2%nat) in
  heap st = [renamed]
  /\ services st = [0%nat]
  /\ length (probes st) = 1%nat
  /\ response_listeners st = []
  /\ queries st = ["Printer.http"%string]
  /\ log st = [Query "Printer.http"; ProbeResult 0 0 true;
               ConsoleLog ("Name conflict, retrying with " ++ dquote
                           ++ "Printer (2)" ++ dquote);
               Register (sample_records renamed);
               Respond (sample_records renamed)]
  /\ (forall R p st0, probes (probed R p true st0) = probes st0).
Proof.
  cbv zeta. split; [vm_compute; reflexivity|].
  repeat (split; [vm_compute; reflexivity|]).
  intros R p st0. apply probes_probed_conflict.
Qed.

(** C2, as stated, fails: the first delay set by an announce cycle is
    3000 ms, not 1000 ms. *)
Lemma first_backoff_is_not_1000 :
  let st := run sample_records init
              [Publish "Printer" "http" (Some false); Complete 0 None] in
  scheduled 0 0 st = [3000] /\ head (scheduled 0 0 st) <> Some 1000.
Proof.
  vm_compute. split; [reflexivity|discriminate].
Qed.



(** C3.  The three queries of the probe are out and the timer that will
    call [done] is pending when [registry.destroy()] runs.  When that timer
    fires, [done] reports "not exists" and [announce] registers the record
    set of the destroyed service with the transport; only the broadcast
    itself is held back by the check of [_destroyed]. *)
Theorem destroyed_service_still_registered :
  let st := run sample_records init
              [Publish "Printer" "http" None; Timeout 0; Complete 1 None;
               Timeout 2; Complete 3 None; Timeout 4; Complete 5 None; Destroy] in
  let svc := mkService "Printer" "http" "Printer.http" false true true
                       (Some "Printer"%string) (Some 1%nat) in
  heap st = [svc]
  /\ loop st !! 6%nat = Some (mkTask (CbDone 0) (Ms 250) Pending)
  /\ log (step sample_records st (Timeout 6))
     = log st ++ [ProbeResult 0 0 false; Register (sample_records svc)].
Proof.
  vm_compute. repeat split.
Qed.

(** Scenario A: no response at all.  Three queries go out, the probe reports
    "not exists" once, the records are registered and broadcast, and "up" is
    emitted once. *)
Lemma unanswered_probe_then_up :
  let st := run sample_records init
              [Publish "Printer" "http" None; Timeout 0; Complete 1 None;
               Timeout 2; Complete 3 None; Timeout 4; Complete 5 None;
               Timeout 6; Complete 7 None] in
  queries st = ["Printer.http"; "Printer.http"; "Printer.http"]%string
  /\ probe_results st = [(0%nat, false)]
  /\ emitted "up" st = [0%nat]
  /\ scheduled 0 0 st = [3000].
Proof.
  vm_compute. repeat split.
Qed.

(** A conflicting response while the probe waits between two queries: the
    pending timer is cleared, and firing it afterwards does nothing. *)
Lemma conflict_between_queries_reported_once :
  let st := run sample_records init
              [Publish "Printer" "http" None; Timeout 0; Complete 1 None;
               Response conflicting] in
  loop st !! 2%nat = Some (mkTask (CbSend 0) (Ms 250) Cleared)
  /\ step sample_records st (Timeout 2) = st
  /\ probe_results st = [(0%nat, true)].
Proof.
  vm_compute. repeat split.
Qed.

(** [destroy] while the jitter timer of the probe is pending: the timer
    fires and nothing is sent. *)
Lemma destroyed_before_first_query :
  let st := run sample_records init [Publish "Printer" "http" None; Destroy] in
  log (step sample_records st (Timeout 0)) = log st.
Proof.
  vm_compute. reflexivity.
Qed.

(** C5.  The second query of the probe is still in flight when a response
    naming "Printer.http" arrives.  The probe reports "exists" to its
    callback; the callback of the query then runs, sets a new timer, and the
    probe goes on: it queries again (now under the new name) and, after the
    last wait, calls the completion callback a second time, with
    "not exists". *)
Theorem probe_callback_called_twice :
  let st := run sample_records init
              [Publish "Printer" "http" None; Timeout 0; Complete 1 None;
               Timeout 2; Response conflicting; Complete 3 None;
               Timeout 5; Complete 6 None; Timeout 7] in
  probe_results st = [(0%nat, true); (0%nat, false)]
  /\ queries st = ["Printer.http"; "Printer.http"; "Printer (2).http"]%string.
Proof.
  vm_compute. split; reflexivity.
Qed.

(** ** The theorems at work on concrete runs *)

(** The cycle announced for [printer], five callbacks on: three timers have
    been set and three broadcasts have gone out. *)
Lemma announce_backoff_schedule_witness :
  (heap started !! 0%nat = Some printer /\ _activated printer = true
   /\ _destroyed printer = false)
  /\ let st' := Nat.iter 5 (fire_last sample_records) (announce sample_records 0 started) in
     scheduled (length (announces started)) (length (loop started)) st'
     = take ((5 + 1) / 2) backoff
     /\ transmissions st'
        = transmissions started
          ++ replicate (Nat.min (S (5 / 2)) 8) (Respond (sample_records printer)).
Proof.
  split; [repeat split|].
  apply (proj2 (announce_backoff_schedule sample_records) started 0%nat printer 5%nat);
    reflexivity.
Defined.

(** The jitter timer has fired and the first query is still in flight when
    a conflicting response arrives. *)
Lemma response_before_first_transmission_ignored_witness :
  before_transmission sample_records (length (probes started))
    (probe 0 (VOpts true) started) [Timeout 0; Response conflicting] = true
  /\ onresponse sample_records (length (probes started)) conflicting
       (run sample_records (probe 0 (VOpts true) started)
            [Timeout 0; Response conflicting])
     = run sample_records (probe 0 (VOpts true) started)
           [Timeout 0; Response conflicting].
Proof.
  split; [reflexivity|].
  apply (response_before_first_transmission_ignored sample_records started 0
           (VOpts true) [Timeout 0; Response conflicting] conflicting).
  reflexivity.
Defined.



(** Scenario B: one collision, second attempt. *)
Lemma name_attempt_counts_collisions_witness :
  let evs := [Publish "Printer" "http" None; Timeout 0; Complete 1 None;
              Response conflicting] in
  let svc := mkService "Printer (2)" "http" "Printer (2).http" false true false
                       (Some "Printer"%string) (Some 2%nat) in
  (forallb named evs = true /\ heap (run sample_records init evs) !! 0%nat = Some svc)
  /\ (fqdn svc = (name svc ++ "." ++ type svc)%string
      /\ _nameAttempt svc
         = Some (1 + collisions 0 (run sample_records init evs))%nat).
Proof.
  intros evs svc. split; [split; reflexivity|].
  apply (name_attempt_counts_collisions sample_records evs 0 svc); reflexivity.
Defined.

(** A second [stop] on a service already stopped. *)
Lemma stop_inactive_noop_witness :
  let st := run sample_records init
              [Publish "Printer" "http" (Some false); Stop 0 None] in
  is_activated st 0 = false
  /\ stop sample_records 0 (Some 3%nat) st = st.
Proof.
  intros st. split; [reflexivity|].
  apply (stop_inactive_noop sample_records st 0 (Some 3%nat)). reflexivity.
Defined.

(** ** The further properties at work on concrete runs *)

(** A second teardown of a service already stopped. *)
Lemma teardown_nothing_active_witness :
  let st := run sample_records init
              [Publish "Printer" "http" (Some false); Stop 0 None] in
  Forall (fun s => is_activated st s = false) [0%nat]
  /\ teardown sample_records [0%nat] (Some 5%nat) st = say (UserCallback 5 None) st.
Proof.
  intros st.
  assert (H : Forall (fun s => is_activated st s = false) [0%nat])
    by (constructor; [vm_compute; reflexivity|constructor]).
  split; [exact H|].
  exact (teardown_nothing_active sample_records [0%nat] (Some 5%nat) st H).
Defined.

(** The probe of "Printer.http" has sent its first query; a response about
    "Scanner.http" arrives. *)
Lemma foreign_response_ignored_witness :
  let st := run sample_records init
              [Publish "Printer" "http" None; Timeout 0; Complete 1 None] in
  let pkt := mkPacket [mkRR "Scanner.http" "SRV" 120] [] in
  foreign st pkt /\ emit_response sample_records pkt st = st.
Proof.
  intros st pkt.
  assert (H : foreign st pkt).
  { intros rr svc Hr Hs.
    assert (Hh : heap st = [printer]) by (vm_compute; reflexivity).
    rewrite Hh in Hs. apply list_elem_of_singleton in Hs.
    cbn in Hr. apply list_elem_of_singleton in Hr. subst. vm_compute. reflexivity. }
  split; [exact H|].
  exact (foreign_response_ignored sample_records pkt st H).
Defined.


(** The probe of [printer], left alone for seven callbacks. *)
Lemma unanswered_probe_announces_witness :
  (heap started !! 0%nat = Some printer /\ _activated printer = true
   /\ _destroyed printer = false)
  /\ log (Nat.iter 7 (fire_last sample_records) (probe 0 (VOpts true) started))
     = log started ++ [Query (fqdn printer); Query (fqdn printer); Query (fqdn printer);
                       ProbeResult (length (probes started)) 0 false;
                       Register (sample_records printer);
                       Respond (sample_records printer)].
Proof.
  split; [repeat split|].
  exact (unanswered_probe_announces sample_records started 0 printer (VOpts true)
           eq_refl eq_refl eq_refl).
Defined.

(** A destroyed service is stopped and started again. *)
Lemma destroyed_is_final_witness :
  let st := run sample_records init [Publish "Printer" "http" None; Destroy] in
  let evs := [Stop 0 None; Start 0 [VOpts true]; Timeout 0] in
  is_destroyed st 0 = true
  /\ is_destroyed (run sample_records st evs) 0 = true.
Proof.
  intros st evs.
  assert (H : is_destroyed st 0 = true) by (vm_compute; reflexivity).
  split; [exact H|].
  exact (destroyed_is_final sample_records evs st 0 H).
Defined.

(** [destroy] during the last wait of the probe, then the timer, a
    conflicting response and the pending callbacks. *)
Lemma destroyed_registry_is_silent_witness :
  let st := run sample_records init
              [Publish "Printer" "http" None; Timeout 0; Complete 1 None;
               Timeout 2; Complete 3 None; Timeout 4; Complete 5 None; Destroy] in
  let evs := [Timeout 6; Response conflicting; Complete 7 None; Timeout 8] in
  (all_destroyed st /\ forallb passive evs = true)
  /\ transmissions (run sample_records st evs) = transmissions st.
Proof.
  intros st evs.
  assert (H : all_destroyed st).
  { unfold all_destroyed.
    assert (Hh : heap st = [set_destroyed true printer]) by (vm_compute; reflexivity).
    rewrite Hh. constructor; [reflexivity|constructor]. }
  split; [split; [exact H|reflexivity]|].
  exact (destroyed_registry_is_silent sample_records evs st H eq_refl).
Defined.


